(** * Sei network analyzer: the wallet scoring engine

    A shallow embedding of [mcp-agents/mcp/server/analyze_server.py]
    (class [SeiAnalyzer] and the tools [analyze_wallet] and
    [compare_addresses]), of the request handling of
    [analyze_server_simple_http.py] and of the input checks of
    [compare_sei_addresses] in [analyze_server_live.py].

    Also embedded: the other endpoints of the HTTP wrapper
    ([compare_wallets_endpoint], [mcp_endpoint]); of the live analyzer the
    requests with fallback endpoints ([_make_request]), the cache of
    [get_network_stats], [get_transactions], the tools
    [analyze_wallet_live] and [get_sei_network_health] and the endpoint
    [analyze_wallet_endpoint] of [analyze_server_live_http.py]; and the
    class [MCPDiscovery] of [utilities/mcp/mcp_discovery.py]. What the
    network, the file system and the JSON parser deliver is a parameter
    of these definitions.

    Conventions of the embedding:
    - a Python [float] is an exact rational ([Q]); rounding of binary
      floating point is outside the model (it can move an input that sits
      exactly on a threshold to the other side of it), and numeric results
      are compared with [==];
    - a Python exception is a value of [exn]; a function that can raise
      returns in the error monad [exc] ([inl e] raised, [inr v] returned);
    - a [dict] read through [.get(key, default)] or [key in d] is a record
      of optional fields, [None] standing for an absent key;
    - [datetime.now()] is an explicit argument [now] of the tools. *)

From Stdlib Require Import QArith Qround Qminmax ZArith List String Ascii Bool Lia Lqa.
From Stdlib Require Reals Qreals.
From Stdlib Require Import Sorted.
From ExtLib Require Import Structures.Monad Structures.MonadExc Data.Monads.EitherMonad.
Import ListNotations.
Import MonadNotation.
Local Open Scope monad_scope.
Local Open Scope string_scope.
Local Open Scope list_scope.
Local Open Scope Q_scope.

(** ** Exceptions *)

Inductive exn : Set :=
| ZeroDivisionError
| StatisticsError
| ValueError.

Definition exc (A : Type) : Type := sum exn A.

#[global] Instance Monad_exc : Monad exc := Monad_either exn.
#[global] Instance Exception_exc : MonadExc exn exc := Exception_either exn.

(** ** Numbers *)

Definition Qlt_bool (x y : Q) : bool := negb (Qle_bool y x).

(* x / y on floats *)
Definition truediv (x y : Q) : exc Q :=
  if Qeq_bool y 0 then raise ZeroDivisionError else ret (x / y).

(* min(x, y): the first argument wins a tie *)
Definition min_ (x y : Q) : Q := if Qlt_bool y x then y else x.

(* max(x, y): the first argument wins a tie *)
Definition max_ (x y : Q) : Q := if Qlt_bool x y then y else x.

(* sum(xs) *)
Definition sum_ (xs : list Q) : Q := fold_left Qplus xs 0.

(* max(xs) of a list: ValueError on the empty list *)
Definition max_list (xs : list Q) : exc Q :=
  match xs with
  | [] => raise ValueError
  | x :: rest => ret (fold_left max_ rest x)
  end.

Definition len {A : Type} (xs : list A) : Q := inject_Z (Z.of_nat (List.length xs)).

(* statistics.mean *)
Definition mean (xs : list Q) : exc Q :=
  match xs with
  | [] => raise StatisticsError
  | _ => ret (sum_ xs / len xs)
  end.

(** ** SeiAnalyzer.calculate_whale_score *)

Definition default_total_supply : Q := 10000000000.

Definition calculate_whale_score (balance total_supply : Q) : exc Q :=
  if Qle_bool balance 0 then ret 0
  else
    ratio <- truediv balance total_supply ;;
    let percentage_of_supply := ratio * 100 in
    if Qle_bool 1 percentage_of_supply then ret 1
    else if Qle_bool (1 # 10) percentage_of_supply then ret (9 # 10)
    else if Qle_bool (1 # 100) percentage_of_supply then ret (7 # 10)
    else if Qle_bool (1 # 1000) percentage_of_supply then ret (5 # 10)
    else if Qle_bool (1 # 10000) percentage_of_supply then ret (3 # 10)
    else ret (1 # 10).

(** ** Transactions

    A transaction is a [dict]; the analyzer reads the keys ['amount'],
    ['type'], ['from'] and ['to'] and no other. *)

Record tx : Type := mk_tx {
  tx_amount : option Q;
  tx_type : option string;
  tx_from : option string;
  tx_to : option string
}.

(* float(tx.get('amount', 0)) *)
Definition amount_of (t : tx) : Q :=
  match tx_amount t with Some a => a | None => 0 end.

(* tx.get(key, '') *)
Definition get_str (field : option string) : string :=
  match field with Some s => s | None => EmptyString end.

Definition tx_count (transactions : list tx) : Z := Z.of_nat (List.length transactions).

(* The values added to the set of addresses: tx['from'] and tx['to'] of
   every transaction that has the key, in the order of the loop. *)
Fixpoint counterparties (transactions : list tx) : list string :=
  match transactions with
  | [] => []
  | t :: rest =>
      (match tx_from t with Some a => [a] | None => [] end) ++
      (match tx_to t with Some a => [a] | None => [] end) ++
      counterparties rest
  end.

(* The set built from a list of strings: its distinct elements. *)
Definition set_ (xs : list string) : list string := nodup string_dec xs.

(** ** SeiAnalyzer.calculate_risk_factor *)

Definition frequency_risk (n : Z) : Q :=
  if (1000 <? n)%Z then 8 # 10
  else if (100 <? n)%Z then 6 # 10
  else 3 # 10.

Definition amount_risk (amounts : list Q) (balance : Q) : exc (list Q) :=
  match amounts with
  | [] => ret []
  | _ =>
      avg_amount <- mean amounts ;;
      max_amount <- max_list amounts ;;
      if Qlt_bool (balance * (5 # 10)) max_amount then ret [7 # 10]
      else if Qlt_bool (balance * (1 # 10)) avg_amount then ret [6 # 10]
      else ret [3 # 10]
  end.

Definition counterparty_risk (counterparty_ratio : Q) : Q :=
  if Qlt_bool counterparty_ratio (1 # 10) then 8 # 10
  else if Qlt_bool counterparty_ratio (3 # 10) then 6 # 10
  else 3 # 10.

Definition calculate_risk_factor (transactions : list tx) (balance : Q) : exc Q :=
  match transactions with
  | [] => ret (5 # 10)
  | _ =>
      let n := tx_count transactions in
      let risk_factors := [frequency_risk n] in
      let amounts := map amount_of transactions in
      by_amount <- amount_risk amounts balance ;;
      let risk_factors := risk_factors ++ by_amount in
      let unique_counterparties := set_ (counterparties transactions) in
      counterparty_ratio <-
        truediv (len unique_counterparties) (inject_Z (Z.max n 1)) ;;
      let risk_factors := risk_factors ++ [counterparty_risk counterparty_ratio] in
      m <- mean risk_factors ;;
      ret (min_ m 1)
  end.

(** ** SeiAnalyzer.calculate_influence_score *)

Definition calculate_influence_score (transactions : list tx) (balance : Q) : exc Q :=
  match transactions with
  | [] => ret (1 # 10)
  | _ =>
      let total_volume := sum_ (map amount_of transactions) in
      v <- truediv total_volume (balance * 10) ;;
      let volume_score := min_ v 1 * (4 # 10) in
      let n := tx_count transactions in
      let activity_score := min_ (inject_Z n / 1000) 1 * (3 # 10) in
      let unique_addresses := set_ (counterparties transactions) in
      let network_score := min_ (len unique_addresses / 100) 1 * (3 # 10) in
      ret (min_ (volume_score + activity_score + network_score) 1)
  end.

(** ** SeiAnalyzer.analyze_transaction_patterns *)

Fixpoint insert_sorted (x : Q) (xs : list Q) : list Q :=
  match xs with
  | [] => [x]
  | y :: rest => if Qle_bool x y then x :: xs else y :: insert_sorted x rest
  end.

(* sorted(xs) *)
Definition sorted (xs : list Q) : list Q := fold_right insert_sorted [] xs.

(* statistics.median *)
Definition median (xs : list Q) : exc Q :=
  let data := sorted xs in
  let n := List.length data in
  match n with
  | O => raise StatisticsError
  | _ =>
      let i := Nat.div n 2 in
      if Nat.odd n then ret (nth i data 0)
      else ret ((nth (i - 1) data 0 + nth i data 0) / 2)
  end.

Record pattern_summary : Type := mk_pattern_summary {
  primary_pattern : string;
  transaction_count : Z;
  average_amount : Q;
  median_amount : Q;
  max_amount : Q;
  incoming_ratio : Q;
  outgoing_ratio : Q;
  patterns : list string
}.

Inductive pattern_report : Type :=
| NoActivity (pattern description : string)
| Patterns (summary : pattern_summary).

(* tx.get('type') == direction *)
Definition has_type (direction : string) (t : tx) : bool :=
  match tx_type t with
  | Some s => String.eqb s direction
  | None => false
  end.

(* sum(1 for tx in transactions if cond(tx)) *)
Definition count_txs (cond : tx -> bool) (transactions : list tx) : Z :=
  Z.of_nat (List.length (filter cond transactions)).

Definition incoming_count (transactions : list tx) : Z :=
  count_txs (has_type "incoming") transactions.

Definition outgoing_count (transactions : list tx) : Z :=
  count_txs (has_type "outgoing") transactions.

Definition analyze_transaction_patterns (transactions : list tx) : exc pattern_report :=
  match transactions with
  | [] => ret (NoActivity "no_activity" "No transactions found")
  | _ =>
      let n := tx_count transactions in
      let amounts := map amount_of transactions in
      stats <-
        match amounts with
        | [] => ret (0, 0, 0)
        | _ =>
            avg_amount <- mean amounts ;;
            median_amount <- median amounts ;;
            max_amount <- max_list amounts ;;
            ret (avg_amount, median_amount, max_amount)
        end ;;
      let '(avg_amount, median_amount, max_amount) := stats in
      let incoming := incoming_count transactions in
      let outgoing := outgoing_count transactions in
      let patterns :=
        if (1000 <? n)%Z then ["high_frequency_trader"]
        else if (outgoing * 2 <? incoming)%Z then ["accumulator"]
        else if (incoming * 2 <? outgoing)%Z then ["distributor"]
        else if Qlt_bool (median_amount * 3) avg_amount then ["irregular_amounts"]
        else ["regular_user"] in
      incoming_ratio <- truediv (inject_Z incoming) (inject_Z (Z.max n 1)) ;;
      outgoing_ratio <- truediv (inject_Z outgoing) (inject_Z (Z.max n 1)) ;;
      ret (Patterns {|
        primary_pattern := match patterns with p :: _ => p | [] => "unknown" end;
        transaction_count := n;
        average_amount := avg_amount;
        median_amount := median_amount;
        max_amount := max_amount;
        incoming_ratio := incoming_ratio;
        outgoing_ratio := outgoing_ratio;
        patterns := patterns
      |})
  end.

(** ** SeiAnalyzer.get_sei_specific_metrics *)

(* str.lower on ASCII text: the letters A..Z are mapped to a..z *)
Definition lower_ascii (c : ascii) : ascii :=
  let n := nat_of_ascii c in
  if (Nat.leb 65 n && Nat.leb n 90)%bool then ascii_of_nat (n + 32) else c.

Fixpoint lower (s : string) : string :=
  match s with
  | EmptyString => EmptyString
  | String c rest => String (lower_ascii c) (lower rest)
  end.

(* needle in s *)
Fixpoint contains (needle s : string) : bool :=
  (String.prefix needle s ||
   match s with
   | EmptyString => false
   | String _ rest => contains needle rest
   end)%bool.

(* 'staking' in tx.get('type', '').lower() *)
Definition is_staking (t : tx) : bool :=
  contains "staking" (lower (get_str (tx_type t))).

(* tx.get('to', '').startswith('sei1') *)
Definition is_defi (t : tx) : bool :=
  String.prefix "sei1" (get_str (tx_to t)).

Definition inflation_rate : Q := 8 # 100.

Record sei_metrics : Type := mk_sei_metrics {
  staking_amount : Q;
  defi_participation : bool;
  sei_network_score : Q;
  estimated_rewards : Q;
  validator_interactions : Z
}.

Definition get_sei_specific_metrics (address : string) (transactions : list tx) : sei_metrics :=
  let staking_txs := filter is_staking transactions in
  let delegation_amount := sum_ (map amount_of staking_txs) in
  let defi_txs := filter is_defi transactions in
  let defi_participation := Nat.ltb 0 (List.length defi_txs) in
  let score := 5 # 10 in
  let score := if Qlt_bool 0 delegation_amount then score + (2 # 10) else score in
  let score := if defi_participation then score + (2 # 10) else score in
  let score := if (50 <? tx_count transactions)%Z then score + (1 # 10) else score in
  {| staking_amount := delegation_amount;
     defi_participation := defi_participation;
     sei_network_score := min_ score 1;
     estimated_rewards := delegation_amount * inflation_rate * (85 # 100);
     validator_interactions := Z.of_nat (List.length staking_txs) |}.

(** ** The tool [analyze_wallet] *)

(* round(x, 3): to the nearest multiple of 1/1000, ties to the even one
   (a tie is a value that binary floating point holds exactly) *)
Definition round_half_even (x : Q) : Z :=
  let f := Qfloor x in
  let d := x - inject_Z f in
  if Qlt_bool d (1 # 2) then f
  else if Qlt_bool (1 # 2) d then (f + 1)%Z
  else if Z.even f then f else (f + 1)%Z.

Definition round3 (x : Q) : Q := inject_Z (round_half_even (x * 1000)) / 1000.

(* [x for x in xs if x is not None] *)
Fixpoint not_none {A : Type} (xs : list (option A)) : list A :=
  match xs with
  | [] => []
  | Some x :: rest => x :: not_none rest
  | None :: rest => not_none rest
  end.

(* text if cond else None *)
Definition when (cond : bool) (text : string) : option string :=
  if cond then Some text else None.

(* walletData: the keys 'address', 'balance' and 'transactions' *)
Record wallet_data : Type := mk_wallet_data {
  wd_address : option string;
  wd_balance : option Q;
  wd_transactions : option (list tx)
}.

Definition get_address (w : wallet_data) : string :=
  match wd_address w with Some a => a | None => "unknown" end.

Definition get_balance (w : wallet_data) : Q :=
  match wd_balance w with Some b => b | None => 0 end.

Definition get_transactions (w : wallet_data) : list tx :=
  match wd_transactions w with Some l => l | None => [] end.

(* The local variables of analyze_wallet before the result is built. *)
Module Locals.
Record t : Type := mk {
  whale_score : Q;
  risk_factor : Q;
  influence_score : Q;
  patterns : pattern_report;
  sei_metrics_ : sei_metrics;
  overall_score : Q;
  classification : string
}.
End Locals.

Definition classify (whale_score influence_score : Q) (sei : sei_metrics) : string :=
  if Qle_bool (8 # 10) whale_score then "Whale"
  else if Qle_bool (5 # 10) whale_score then "Large Holder"
  else if Qle_bool (7 # 10) influence_score then "Active Trader"
  else if defi_participation sei then "DeFi User"
  else if Qlt_bool 0 (staking_amount sei) then "Staker"
  else "Regular User".

Definition analyze_locals (address : string) (balance : Q) (transactions : list tx)
  : exc Locals.t :=
  whale_score <- calculate_whale_score balance default_total_supply ;;
  risk_factor <- calculate_risk_factor transactions balance ;;
  influence_score <- calculate_influence_score transactions balance ;;
  patterns <- analyze_transaction_patterns transactions ;;
  let sei := get_sei_specific_metrics address transactions in
  let overall_score :=
    whale_score * (3 # 10) + (1 - risk_factor) * (3 # 10) + influence_score * (4 # 10) in
  ret (Locals.mk whale_score risk_factor influence_score patterns sei
         overall_score (classify whale_score influence_score sei)).

Module Scores.
Record t : Type := mk {
  whale_score : Q;
  risk_factor : Q;
  influence_score : Q;
  overall_score : Q;
  sei_network_score : Q
}.
End Scores.

Record wallet_metrics : Type := mk_wallet_metrics {
  balance_sei : Q;
  wm_transaction_count : Z;
  estimated_usd_value : Q;
  balance_percentage_of_supply : Q
}.

Record risk_assessment : Type := mk_risk_assessment {
  level : string;
  factors : list string
}.

Record wallet_analysis : Type := mk_wallet_analysis {
  address : string;
  analysis_timestamp : string;
  classification : string;
  scores : Scores.t;
  metrics : wallet_metrics;
  transaction_patterns : pattern_report;
  sei_specific : sei_metrics;
  assessment : risk_assessment;
  recommendations : list string
}.

Definition risk_level (risk_factor : Q) : string :=
  if Qlt_bool (7 # 10) risk_factor then "High"
  else if Qlt_bool (4 # 10) risk_factor then "Medium"
  else "Low".

Definition risk_factors_found (balance : Q) (transactions : list tx) : list string :=
  let n := tx_count transactions in
  not_none [
    when (1000 <? n)%Z "High transaction frequency";
    when (Qlt_bool (len (set_ (map (fun t => get_str (tx_from t)) transactions)))
                   (inject_Z n * (1 # 10)))
         "Limited counterparties";
    when (existsb (fun t => Qlt_bool (balance * (5 # 10)) (amount_of t)) transactions)
         "Large transaction amounts"
  ].

Definition recommend (l : Locals.t) (transactions : list tx) : list string :=
  let sei := Locals.sei_metrics_ l in
  not_none [
    when (Qlt_bool (8 # 10) (Locals.risk_factor l)) "Monitor for wash trading";
    when (Qlt_bool (8 # 10) (Locals.influence_score l) && (500 <? tx_count transactions)%Z)
         "Potential market maker";
    when (Qlt_bool (8 # 10) (sei_network_score sei)) "Strong network participant";
    when (Qlt_bool 1000000 (staking_amount sei)) "Consider for validator program"
  ].

Definition build_result (now address : string) (balance : Q) (transactions : list tx)
    (l : Locals.t) : wallet_analysis :=
  let sei := Locals.sei_metrics_ l in
  {| address := address;
     analysis_timestamp := now;
     classification := Locals.classification l;
     scores := Scores.mk (round3 (Locals.whale_score l))
                         (round3 (Locals.risk_factor l))
                         (round3 (Locals.influence_score l))
                         (round3 (Locals.overall_score l))
                         (round3 (sei_network_score sei));
     metrics := {| balance_sei := balance;
                   wm_transaction_count := tx_count transactions;
                   estimated_usd_value := balance * (45 # 100);
                   balance_percentage_of_supply := balance / 10000000000 * 100 |};
     transaction_patterns := Locals.patterns l;
     sei_specific := sei;
     assessment := {| level := risk_level (Locals.risk_factor l);
                      factors := risk_factors_found balance transactions |};
     recommendations := recommend l transactions |}.

Definition analyze_wallet (now : string) (walletData : wallet_data) : exc wallet_analysis :=
  let address := get_address walletData in
  let balance := get_balance walletData in
  let transactions := get_transactions walletData in
  l <- analyze_locals address balance transactions ;;
  ret (build_result now address balance transactions l).

Definition wallet (a : string) (b : Q) (txs : list tx) : wallet_data :=
  mk_wallet_data (Some a) (Some b) (Some txs).

Definition transfer (amount : Q) (src dst : string) : tx :=
  mk_tx (Some amount) (Some "transfer") (Some src) (Some dst).

(** ** The tool [compare_addresses] *)

(* The sum of the squared deviations from the mean. *)
Definition sum_sq_dev (xs : list Q) : exc Q :=
  m <- mean xs ;;
  ret (sum_ (map (fun x => (x - m) * (x - m)) xs)).

(* statistics.variance: the sample variance, n - 1 in the denominator *)
Definition variance (xs : list Q) : exc Q :=
  if (Z.of_nat (List.length xs) <? 2)%Z then raise StatisticsError
  else
    ss <- sum_sq_dev xs ;;
    truediv ss (len xs - 1).

(* sqrt(v) < c for v >= 0: the square root is increasing, so the test is
   0 < c and v < c * c; see [sqrt_lt_spec]. *)
Definition sqrt_lt (v c : Q) : bool := (Qlt_bool 0 c && Qlt_bool v (c * c))%bool.

(* statistics.stdev(xs) < c, where stdev is the square root of variance *)
Definition stdev_lt (xs : list Q) (c : Q) : exc bool :=
  v <- variance xs ;;
  ret (sqrt_lt v c).

Record comparison_entry : Type := mk_comparison_entry {
  ce_address : string;
  ce_whale_score : Q;
  ce_risk_factor : Q;
  ce_influence_score : Q;
  ce_classification : string;
  ce_balance : Q;
  ce_tx_count : Z
}.

Record comparison : Type := mk_comparison {
  total_addresses : Z;
  highest_whale_score : Q;
  highest_risk : Q;
  average_whale_score : Q;
  average_risk : Q;
  individual_analysis : list comparison_entry;
  whale_concentration : Z;
  high_risk_addresses : Z;
  potential_connections : string
}.

Inductive compare_reply : Type :=
| CompareError (error : string)
| Comparison (c : comparison).

(* addressData: the key 'addresses' *)
Record address_data : Type := mk_address_data {
  ad_addresses : option (list wallet_data)
}.

Definition get_addresses (d : address_data) : list wallet_data :=
  match ad_addresses d with Some l => l | None => [] end.

Definition compare_entry (now : string) (addr_data : wallet_data) : exc comparison_entry :=
  analysis <- analyze_wallet now addr_data ;;
  ret {| ce_address := get_address addr_data;
         ce_whale_score := Scores.whale_score (scores analysis);
         ce_risk_factor := Scores.risk_factor (scores analysis);
         ce_influence_score := Scores.influence_score (scores analysis);
         ce_classification := classification analysis;
         ce_balance := get_balance addr_data;
         ce_tx_count := tx_count (get_transactions addr_data) |}.

(* The loop over the addresses: the first exception ends it. *)
Fixpoint compare_entries (now : string) (addresses : list wallet_data)
  : exc (list comparison_entry) :=
  match addresses with
  | [] => ret []
  | addr_data :: rest =>
      e <- compare_entry now addr_data ;;
      es <- compare_entries now rest ;;
      ret (e :: es)
  end.

Definition count_above (bound : Q) (xs : list Q) : Z :=
  Z.of_nat (List.length (filter (fun x => Qlt_bool bound x) xs)).

Definition compare_addresses (now : string) (addressData : address_data) : exc compare_reply :=
  let addresses := get_addresses addressData in
  if (Z.of_nat (List.length addresses) <? 2)%Z
  then ret (CompareError "At least 2 addresses required for comparison")
  else
    comparisons <- compare_entries now addresses ;;
    let whale_scores := map ce_whale_score comparisons in
    let risk_factors := map ce_risk_factor comparisons in
    highest_whale <- max_list whale_scores ;;
    highest_risk <- max_list risk_factors ;;
    mean_whale <- mean whale_scores ;;
    mean_risk <- mean risk_factors ;;
    clustered <- stdev_lt whale_scores (1 # 10) ;;
    ret (Comparison {|
      total_addresses := Z.of_nat (List.length addresses);
      highest_whale_score := highest_whale;
      highest_risk := highest_risk;
      average_whale_score := round3 mean_whale;
      average_risk := round3 mean_risk;
      individual_analysis := comparisons;
      whale_concentration := count_above (7 # 10) whale_scores;
      high_risk_addresses := count_above (7 # 10) risk_factors;
      potential_connections :=
        if clustered then "Manual review recommended" else "No obvious connections"
    |}).

(** The population variance, the sum of squared deviations over n: the
    dispersion measure named by the specification of the comparator, kept
    apart from [variance], which is what the code calls. *)
Definition pvariance (xs : list Q) : exc Q :=
  match xs with
  | [] => raise StatisticsError
  | _ => ss <- sum_sq_dev xs ;; truediv ss (len xs)
  end.

Definition pstdev_lt (xs : list Q) (c : Q) : exc bool :=
  v <- pvariance xs ;;
  ret (sqrt_lt v c).

(** ** The HTTP wrapper: [analyze_wallet_endpoint] of analyze_server_simple_http.py *)

(* The JSON body of POST /analyze/wallet. *)
Record request_body : Type := mk_request_body {
  body_address : option string;
  body_balance : option Q;
  body_transactions : option (list tx)
}.

(* What an HTTPException carries as detail: a literal text, or str(e) of
   the exception caught by the handler. *)
Inductive caught : Type :=
| PythonError (e : exn)
| HTTPException (status_code : Z) (detail : string).

Inductive error_detail : Type :=
| Text (s : string)
| StrOf (e : caught).

Inductive http_response : Type :=
| JSONResponse (content : wallet_analysis)
| HTTPError (status_code : Z) (detail : error_detail).

(* not address *)
Definition falsy (address : option string) : bool :=
  match address with
  | None => true
  | Some s => String.eqb s EmptyString
  end.

(* The body of the try block: Python exceptions and the HTTPException it
   raises itself both leave it as [inl]. *)
Definition analyze_wallet_endpoint_try (now : string) (body : request_body)
  : sum caught wallet_analysis :=
  let address := body_address body in
  let balance := match body_balance body with Some b => b | None => 1000000 end in
  let transactions := match body_transactions body with Some l => l | None => [] end in
  if falsy address then inl (HTTPException 400 "Address is required")
  else
    let wallet_data := mk_wallet_data address (Some balance) (Some transactions) in
    match analyze_wallet now wallet_data with
    | inl e => inl (PythonError e)
    | inr result => inr result
    end.

(* except Exception as e: raise HTTPException(status_code=500, detail=str(e)) *)
Definition analyze_wallet_endpoint (now : string) (body : request_body) : http_response :=
  match analyze_wallet_endpoint_try now body with
  | inl e => HTTPError 500 (StrOf e)
  | inr result => JSONResponse result
  end.

(** ** The live comparison: the input checks of [compare_sei_addresses]

    [analyze_wallet_live] fetches the account over the network; it is a
    parameter here, and so is the summary computed from the analyses that
    succeeded. *)

Section Live.

Variable live_analysis : Type.
Variable live_comparison : Type.

Inductive live_reply : Type :=
| LiveFailed (error : string)
| LiveResult (a : live_analysis).

Inductive live_compare_reply : Type :=
| LiveCompareError (error : string)
| LiveCompareFailed (e : exn)
| LiveComparison (c : live_comparison).

Variable analyze_wallet_live : string -> live_reply.
Variable summarise : list live_analysis -> exc live_comparison.

(* analyses: the replies without the key 'error' *)
Fixpoint valid_analyses (addresses : list string) : list live_analysis :=
  match addresses with
  | [] => []
  | a :: rest =>
      match analyze_wallet_live a with
      | LiveFailed _ => valid_analyses rest
      | LiveResult r => r :: valid_analyses rest
      end
  end.

Definition compare_sei_addresses (addresses : list string) : live_compare_reply :=
  if (Z.of_nat (List.length addresses) <? 2)%Z
  then LiveCompareError "At least 2 addresses required for comparison"
  else
    let analyses := valid_analyses addresses in
    if (Z.of_nat (List.length analyses) <? 2)%Z
    then LiveCompareError "Could not analyze enough addresses for comparison"
    else
      match summarise analyses with
      | inl e => LiveCompareFailed e
      | inr c => LiveComparison c
      end.

End Live.

Arguments LiveFailed {live_analysis} error.
Arguments LiveResult {live_analysis} a.
Arguments LiveCompareError {live_comparison} error.
Arguments LiveCompareFailed {live_comparison} e.
Arguments LiveComparison {live_comparison} c.
Arguments valid_analyses {live_analysis} analyze_wallet_live addresses.
Arguments compare_sei_addresses {live_analysis live_comparison} analyze_wallet_live summarise addresses.

(** ** Vocabulary of the statements *)

(* m is the largest element of xs *)
Definition is_maximum (m : Q) (xs : list Q) : Prop :=
  In m xs /\ forall y, In y xs -> y <= m.

(* a is the sender or the recipient of one of the transactions *)
Definition is_counterparty (a : string) (transactions : list tx) : Prop :=
  exists t, In t transactions /\ (tx_from t = Some a \/ tx_to t = Some a).

(* The three sub-scores of the risk factor, as bands. *)
Definition frequency_band (count : Z) (s : Q) : Prop :=
  ((1000 < count)%Z -> s = 8 # 10) /\
  ((100 < count <= 1000)%Z -> s = 6 # 10) /\
  ((count <= 100)%Z -> s = 3 # 10).

Definition concentration_band (max_amount mean_amount balance s : Q) : Prop :=
  (balance * (5 # 10) < max_amount -> s = 7 # 10) /\
  (max_amount <= balance * (5 # 10) -> balance * (1 # 10) < mean_amount -> s = 6 # 10) /\
  (max_amount <= balance * (5 # 10) -> mean_amount <= balance * (1 # 10) -> s = 3 # 10).

Definition diversity_band (ratio s : Q) : Prop :=
  (ratio < 1 # 10 -> s = 8 # 10) /\
  ((1 # 10) <= ratio < 3 # 10 -> s = 6 # 10) /\
  ((3 # 10) <= ratio -> s = 3 # 10).

(* The record r with its time stamp replaced. *)
Definition with_timestamp (stamp : string) (r : wallet_analysis) : wallet_analysis :=
  {| address := address r;
     analysis_timestamp := stamp;
     classification := classification r;
     scores := scores r;
     metrics := metrics r;
     transaction_patterns := transaction_patterns r;
     sei_specific := sei_specific r;
     assessment := assessment r;
     recommendations := recommendations r |}.

Definition exc_map {A B : Type} (f : A -> B) (c : exc A) : exc B :=
  x <- c ;; ret (f x).

(* The labels of the classification of analyze_wallet. *)
Definition labels : list string :=
  ["Whale"; "Large Holder"; "Active Trader"; "DeFi User"; "Staker"; "Regular User"].

(* Unfolding of the error monad. *)
Ltac exc_simpl :=
  cbn [bind ret raise Monad_exc Monad_either Exception_exc Exception_either] in *.


(* The wallets whose analysis cannot divide by zero. *)
Definition scorable (w : wallet_data) : Prop :=
  get_transactions w = [] \/ ~ get_balance w == 0.


(* The list patterns of analyze_transaction_patterns, by its conditions. *)
Definition pattern_of (n incoming outgoing : Z) (avg_amount median_amount : Q) : list string :=
  if (1000 <? n)%Z then ["high_frequency_trader"]
  else if (outgoing * 2 <? incoming)%Z then ["accumulator"]
  else if (incoming * 2 <? outgoing)%Z then ["distributor"]
  else if Qlt_bool (median_amount * 3) avg_amount then ["irregular_amounts"]
  else ["regular_user"].

(** ** The HTTP wrapper: the other endpoints of analyze_server_simple_http.py *)

(* What a handler gives back: JSONResponse(content) or a raised
   HTTPException(status_code, detail). *)
Inductive reply (A : Type) : Type :=
| Content (content : A)
| Failure (status_code : Z) (detail : error_detail).

Arguments Content {A} content.
Arguments Failure {A} status_code detail.




(** The JSON-RPC endpoint POST /mcp. *)

Inductive json_id : Type :=
| IdNumber (n : Z)
| IdText (s : string)
| IdNull.

Record tool_arguments : Type := mk_tool_arguments {
  arg_walletData : option wallet_data;
  arg_addressData : option address_data
}.

Record rpc_params : Type := mk_rpc_params {
  param_name : option string;
  param_arguments : option tool_arguments
}.

Record rpc_body : Type := mk_rpc_body {
  rpc_method : option string;
  rpc_params_ : option rpc_params;
  rpc_id : option json_id
}.

(* body.get("id", 1) *)
Definition get_id (body : rpc_body) : json_id :=
  match rpc_id body with Some i => i | None => IdNumber 1 end.

(* value == text, for the value of a key that may be absent *)
Definition is_text (value : option string) (text : string) : bool :=
  match value with Some s => String.eqb s text | None => false end.

(* The text of an f-string field: str(value), 'None' for an absent key. *)
Definition str_of (value : option string) : string :=
  match value with Some s => s | None => "None" end.

Definition tool_list : list (string * string) :=
  [("analyze_wallet",
    "Comprehensive analysis of a Sei wallet address including risk assessment, whale scoring, and transaction patterns");
   ("compare_addresses",
    "Compare multiple wallet addresses to identify patterns, connections, and risk factors");
   ("analyze_network_health",
    "Monitor Sei network health, performance metrics, and validator status")].

Section Mcp.

(* analyze_network_health, a report built from constants and the clock, is
   a parameter. *)
Variable health_report : Type.
Variable analyze_network_health : string -> health_report.

Inductive rpc_result : Type :=
| ToolList (tools : list (string * string))
| WalletResult (r : wallet_analysis)
| CompareResult (r : compare_reply)
| HealthResult (r : health_report).

Record rpc_envelope : Type := mk_rpc_envelope {
  jsonrpc : string;
  envelope_id : json_id;
  outcome : sum (Z * error_detail) rpc_result
}.

(* The value of a tool, or the exception it raised. *)
Definition tool_value {A : Type} (wrap : A -> rpc_result) (c : exc A) : sum caught rpc_result :=
  match c with
  | inl e => inl (PythonError e)
  | inr v => inr (wrap v)
  end.

(* The try block of mcp_endpoint after the body has been read. *)
Definition mcp_dispatch (now : string) (body : rpc_body) : sum caught rpc_result :=
  let method := rpc_method body in
  let params :=
    match rpc_params_ body with Some p => p | None => mk_rpc_params None None end in
  if is_text method "tools/list" then inr (ToolList tool_list)
  else if is_text method "tools/call" then
    let tool_name := param_name params in
    let tool_args :=
      match param_arguments params with
      | Some a => a
      | None => mk_tool_arguments None None
      end in
    if is_text tool_name "analyze_wallet" then
      let wallet_data :=
        match arg_walletData tool_args with
        | Some w => w
        | None => mk_wallet_data None None None
        end in
      tool_value WalletResult (analyze_wallet now wallet_data)
    else if is_text tool_name "compare_addresses" then
      let address_data :=
        match arg_addressData tool_args with
        | Some a => a
        | None => mk_address_data None
        end in
      tool_value CompareResult (compare_addresses now address_data)
    else if is_text tool_name "analyze_network_health" then
      inr (HealthResult (analyze_network_health now))
    else inl (HTTPException 400 ("Unknown tool: " ++ str_of tool_name)%string)
  else inl (HTTPException 400 ("Unknown method: " ++ str_of method)%string).

(* request: the parsed JSON body, or None when request.json() raised (a
   JSONDecodeError, which is a ValueError). *)
Definition mcp_endpoint (now : string) (request : option rpc_body) : rpc_envelope :=
  match request with
  | None =>
      mk_rpc_envelope "2.0" (IdNumber 1) (inl ((-32603)%Z, StrOf (PythonError ValueError)))
  | Some body =>
      match mcp_dispatch now body with
      | inr result => mk_rpc_envelope "2.0" (get_id body) (inr result)
      | inl e => mk_rpc_envelope "2.0" (get_id body) (inl ((-32603)%Z, StrOf e))
      end
  end.

End Mcp.

Arguments ToolList {health_report} tools.
Arguments WalletResult {health_report} r.
Arguments CompareResult {health_report} r.
Arguments HealthResult {health_report} r.
Arguments jsonrpc {health_report} r.
Arguments envelope_id {health_report} r.
Arguments outcome {health_report} r.
Arguments mcp_dispatch {health_report} analyze_network_health now body.
Arguments mcp_endpoint {health_report} analyze_network_health now request.

(** ** analyze_server_live.py: the requests to the chain

    What the network answers is a parameter: [http_get url] is [None] when
    the request raises (no connection, timeout), and otherwise the status
    of the response with its JSON body ([None] when it cannot be
    decoded). *)

(* path.lstrip('/') *)
Fixpoint lstrip_slash (s : string) : string :=
  match s with
  | String c rest => if Ascii.eqb c "/" then lstrip_slash rest else s
  | EmptyString => s
  end.

(* endpoint.rstrip('/') *)
Fixpoint rstrip_slash (s : string) : string :=
  match s with
  | EmptyString => EmptyString
  | String c rest =>
      match rstrip_slash rest with
      | EmptyString => if Ascii.eqb c "/" then EmptyString else String c EmptyString
      | kept => String c kept
      end
  end.

(* f"{endpoint.rstrip('/')}/{path.lstrip('/')}" if path else endpoint *)
Definition request_url (endpoint path : string) : string :=
  match path with
  | EmptyString => endpoint
  | _ => (rstrip_slash endpoint ++ "/" ++ lstrip_slash path)%string
  end.

Section MakeRequest.

Variable json : Type.
Variable http_get : string -> option (Z * option json).

(* SeiLiveAnalyzer._make_request: the error is the message of the
   exception raised when every endpoint has been tried. *)
Fixpoint make_request (endpoints : list string) (path : string) : sum string json :=
  match endpoints with
  | [] => inl "All Sei endpoints failed"
  | endpoint :: rest =>
      match http_get (request_url endpoint path) with
      | Some (status, body) =>
          if (status =? 200)%Z then
            match body with
            | Some answer => inr answer
            | None => make_request rest path
            end
          else make_request rest path
      | None => make_request rest path
      end
  end.

(* The endpoint answers the request with status 200 and a JSON body. *)
Definition answers (endpoint path : string) (answer : json) : Prop :=
  http_get (request_url endpoint path) = Some (200%Z, Some answer).

Definition fails (endpoint path : string) : Prop :=
  forall answer, ~ answers endpoint path answer.

End MakeRequest.

Arguments make_request {json} http_get endpoints path.
Arguments answers {json} http_get endpoint path answer.
Arguments fails {json} http_get endpoint path.

(** ** SeiLiveAnalyzer.get_network_stats: the cache of the network data *)

Record network_data : Type := mk_network_data {
  nd_block_height : Z;
  nd_block_time : option string;
  nd_active_validators : Z;
  nd_total_bonded_tokens : option Q;
  nd_total_supply : Q;
  nd_staking_ratio : Q;
  nd_chain_id : option string;
  nd_error : option string
}.

(* What the four requests of the try block deliver once parsed: the
   height and time of the latest block, the number of bonded validators,
   and the bonded tokens and the supply in usei. *)
Record chain_figures : Type := mk_chain_figures {
  cf_block_height : Z;
  cf_block_time : string;
  cf_validators : Z;
  cf_bonded_tokens : Z;
  cf_supply : Z
}.

Definition sei_decimals : Q := 1000000.

Definition network_data_of (f : chain_figures) : network_data :=
  let total_bonded := inject_Z (cf_bonded_tokens f) / sei_decimals in
  let total_supply := inject_Z (cf_supply f) / sei_decimals in
  let staking_ratio :=
    if Qlt_bool 0 total_supply then total_bonded / total_supply else 0 in
  {| nd_block_height := cf_block_height f;
     nd_block_time := Some (cf_block_time f);
     nd_active_validators := cf_validators f;
     nd_total_bonded_tokens := Some total_bonded;
     nd_total_supply := total_supply;
     nd_staking_ratio := staking_ratio;
     nd_chain_id := Some "pacific-1";
     nd_error := None |}.

(* The estimated data returned when nothing could be fetched. *)
Definition fallback_data (error : string) : network_data :=
  {| nd_block_height := 85000000;
     nd_block_time := None;
     nd_active_validators := 100;
     nd_total_bonded_tokens := None;
     nd_total_supply := 10000000000;
     nd_staking_ratio := 65 # 100;
     nd_chain_id := None;
     nd_error := Some error |}.

(* self._network_cache["network_stats"]: time stamp and data *)
Definition network_cache : Type := option (Q * network_data).

Definition cache_ttl : Q := 300.

(* get_network_stats at the time now, with the cache as it is and the
   outcome of the requests should they be made ([inl]: the message of the
   exception of the try block); returns the data and the cache after the
   call. *)
Definition get_network_stats (now : Q) (cache : network_cache)
    (fetched : sum string chain_figures) : network_data * network_cache :=
  let refresh :=
    match fetched with
    | inr figures =>
        let data := network_data_of figures in
        (data, Some (now, data))
    | inl error =>
        match cache with
        | Some (_, data) => (data, cache)
        | None => (fallback_data error, cache)
        end
    end in
  match cache with
  | Some (stamp, data) =>
      if Qlt_bool (now - stamp) cache_ttl then (data, cache) else refresh
  | None => refresh
  end.

(** ** The tool get_sei_network_health *)

Record health_analysis : Type := mk_health_analysis {
  health_overall_score : Q;
  health_status : string;
  health_chain_id : string;
  health_last_updated : string;
  live_metrics : network_data;
  staking_participation : string;
  validator_count : Z;
  network_security : string;
  latest_block : Z;
  health_real_data : bool;
  data_source : string
}.

Definition health_score (staking_ratio : Q) (active_validators : Z) : Q :=
  min_ (staking_ratio / (6 # 10)) 1 * (4 # 10)
  + min_ (inject_Z active_validators / 80) 1 * (4 # 10)
  + (2 # 10).

Definition health_status_of (score : Q) : string :=
  if Qlt_bool (9 # 10) score then "Excellent"
  else if Qlt_bool (7 # 10) score then "Good"
  else "Fair".

Section NetworkHealth.

(* f"{staking_ratio:.1%}" *)
Variable format_percent : Q -> string.

(* The report built from the network data that get_network_stats
   returned; clock is the text of datetime.now(). *)
Definition get_sei_network_health (clock : string) (network_stats : network_data)
  : health_analysis :=
  let staking_ratio := nd_staking_ratio network_stats in
  let active_validators := nd_active_validators network_stats in
  let score := health_score staking_ratio active_validators in
  {| health_overall_score := round3 score;
     health_status := health_status_of score;
     health_chain_id :=
       match nd_chain_id network_stats with Some c => c | None => "pacific-1" end;
     health_last_updated := clock;
     live_metrics := network_stats;
     staking_participation := format_percent staking_ratio;
     validator_count := active_validators;
     network_security := if Qlt_bool (6 # 10) staking_ratio then "High" else "Medium";
     latest_block := nd_block_height network_stats;
     health_real_data := true;
     data_source := "sei-blockchain-apis" |}.

End NetworkHealth.

(** ** analyze_server_live.py: transactions and the tool analyze_wallet_live *)

(* The dict built by _parse_transaction; 'type' holds the direction and
   'tx_type' the kind. *)
Record live_tx : Type := mk_live_tx {
  ltx_hash : string;
  ltx_height : Z;
  ltx_timestamp : string;
  ltx_type : string;
  ltx_tx_type : string;
  ltx_amount : Q;
  ltx_counterparty : string;
  ltx_fee : Q;
  ltx_status : string
}.

(* One step of list.sort(key=timestamp, reverse=True), which is stable:
   x, which came before the elements of sorted_rest, goes in front of the
   first of them whose time stamp is not larger than its own. *)
Fixpoint insert_by_timestamp (x : live_tx) (sorted_rest : list live_tx) : list live_tx :=
  match sorted_rest with
  | [] => [x]
  | y :: rest =>
      if String.ltb (ltx_timestamp x) (ltx_timestamp y)
      then y :: insert_by_timestamp x rest
      else x :: sorted_rest
  end.

Definition sort_newest_first (transactions : list live_tx) : list live_tx :=
  fold_right insert_by_timestamp [] transactions.

(* SeiLiveAnalyzer.get_transactions: fetched is None when one of the two
   requests raised, and otherwise the transactions of the two pages (sent,
   then received) as _parse_transaction returned them, None for one it
   could not parse. *)
Definition get_live_transactions
    (fetched : option (list (option live_tx) * list (option live_tx))) (limit : nat)
  : list live_tx :=
  match fetched with
  | None => []
  | Some (sent_txs, received_txs) =>
      let transactions := not_none sent_txs ++ not_none received_txs in
      firstn limit (sort_newest_first transactions)
  end.

(* The dict returned by get_account_info when the requests succeeded. *)
Record account_info : Type := mk_account_info {
  ai_balance_sei : Q;
  ai_balance_usei : Z;
  ai_account_number : option string;
  ai_sequence : option string
}.

(* round(x, 6) *)
Definition round6 (x : Q) : Q := inject_Z (round_half_even (x * 1000000)) / 1000000.

Module LiveScores.
Record t : Type := mk {
  whale_score : Q;
  risk_factor : Q;
  influence_score : Q;
  overall_score : Q
}.
End LiveScores.

Record live_wallet_metrics : Type := mk_live_wallet_metrics {
  lm_balance_sei : Q;
  lm_balance_usei : Z;
  lm_transaction_count : Z;
  lm_account_number : option string;
  lm_sequence : option string;
  lm_staking_transactions : Z;
  lm_reward_transactions : Z
}.

Record transaction_analysis : Type := mk_transaction_analysis {
  total_transactions : Z;
  successful_transactions : Z;
  failed_transactions : Z;
  total_volume_sei : Q;
  average_transaction_amount : Q;
  latest_transaction : option string
}.

Record live_wallet_analysis : Type := mk_live_wallet_analysis {
  live_address : string;
  live_analysis_timestamp : string;
  live_classification : string;
  live_real_data : bool;
  live_scores : LiveScores.t;
  live_metrics_ : live_wallet_metrics;
  live_transaction_analysis : transaction_analysis;
  recent_transactions : list live_tx;
  live_recommendations : list string
}.

Definition count_live (cond : live_tx -> bool) (transactions : list live_tx) : Z :=
  Z.of_nat (List.length (filter cond transactions)).

Definition live_whale_score (balance : Q) : Q := min_ (balance / 10000000) 1.

Definition live_failed_count (transactions : list live_tx) : Z :=
  count_live (fun t => String.eqb (ltx_status t) "failed") transactions.

Definition live_risk_factor (transactions : list live_tx) : Q :=
  let n := Z.of_nat (List.length transactions) in
  let risk_factor := 3 # 10 in
  let risk_factor := if (1000 <? n)%Z then risk_factor + (3 # 10) else risk_factor in
  let risk_factor :=
    if Qlt_bool (inject_Z n * (1 # 10)) (inject_Z (live_failed_count transactions))
    then risk_factor + (2 # 10) else risk_factor in
  min_ risk_factor 1.

Definition live_total_volume (transactions : list live_tx) : Q :=
  sum_ (map ltx_amount transactions).

(* min(total_volume / balance if balance > 0 else 0, 1.0) * 0.5 *)
Definition live_influence_score (transactions : list live_tx) (balance : Q) : exc Q :=
  ratio <- (if Qlt_bool 0 balance then truediv (live_total_volume transactions) balance
            else ret 0) ;;
  ret (min_ ratio 1 * (5 # 10)).

Definition live_classify (whale_score : Q) (staking_count tx_total : Z) : string :=
  if Qlt_bool (8 # 10) whale_score then "Whale"
  else if Qlt_bool (5 # 10) whale_score then "Large Holder"
  else if (10 <? staking_count)%Z then "Active Staker"
  else if (100 <? tx_total)%Z then "Active Trader"
  else "Regular User".

(* The analysis computed in the try block from the account and its
   transactions. *)
Definition live_analysis_of (clock address : string) (account : account_info)
    (transactions : list live_tx) : exc live_wallet_analysis :=
  let balance := ai_balance_sei account in
  let n := Z.of_nat (List.length transactions) in
  let whale_score := live_whale_score balance in
  let risk_factor := live_risk_factor transactions in
  let failed_txs := live_failed_count transactions in
  let total_volume := live_total_volume transactions in
  influence_score <- live_influence_score transactions balance ;;
  let staking_txs := count_live (fun t => String.eqb (ltx_tx_type t) "staking") transactions in
  let reward_txs := count_live (fun t => String.eqb (ltx_tx_type t) "rewards") transactions in
  let classification := live_classify whale_score staking_txs n in
  average <-
    match transactions with
    | [] => ret 0
    | _ => a <- truediv total_volume (inject_Z n) ;; ret (round6 a)
    end ;;
  ret {|
    live_address := address;
    live_analysis_timestamp := clock;
    live_classification := classification;
    live_real_data := true;
    live_scores :=
      LiveScores.mk (round3 whale_score) (round3 risk_factor) (round3 influence_score)
        (round3 (whale_score * (4 # 10) + (1 - risk_factor) * (3 # 10)
                 + influence_score * (3 # 10)));
    live_metrics_ :=
      {| lm_balance_sei := balance;
         lm_balance_usei := ai_balance_usei account;
         lm_transaction_count := n;
         lm_account_number := ai_account_number account;
         lm_sequence := ai_sequence account;
         lm_staking_transactions := staking_txs;
         lm_reward_transactions := reward_txs |};
    live_transaction_analysis :=
      {| total_transactions := n;
         successful_transactions :=
           count_live (fun t => String.eqb (ltx_status t) "success") transactions;
         failed_transactions := failed_txs;
         total_volume_sei := round6 total_volume;
         average_transaction_amount := average;
         latest_transaction :=
           match transactions with t :: _ => Some (ltx_timestamp t) | [] => None end |};
    recent_transactions := firstn 5 transactions;
    live_recommendations :=
      not_none [
        when (Qlt_bool (7 # 10) whale_score) "High-value wallet - monitor for large movements";
        when (5 <? staking_txs)%Z "Active staker - earning rewards";
        when ((staking_txs =? 0)%Z && Qlt_bool 1000 balance) "Consider staking for rewards";
        when (Qlt_bool (inject_Z n * (1 # 10)) (inject_Z failed_txs))
             "High transaction failure rate"
      ] |}.

Section LiveTool.

(* str(e), the message of an exception *)
Variable str_exception : exn -> string.

(* The tool analyze_wallet_live: account is what get_account_info
   returned ([inl]: the dict with the key 'error'), fetched what the
   requests of get_transactions delivered. *)
Definition analyze_wallet_live_tool (clock address : string)
    (account : sum string account_info)
    (fetched : option (list (option live_tx) * list (option live_tx)))
  : live_reply live_wallet_analysis :=
  match account with
  | inl error => LiveFailed error
  | inr info =>
      match live_analysis_of clock address info (get_live_transactions fetched 100) with
      | inl e => LiveFailed (str_exception e)
      | inr result => LiveResult result
      end
  end.

End LiveTool.

(** POST /analyze/wallet of analyze_server_live_http.py: the same analysis
    behind the checks of the endpoint; the body holds the address. *)
Definition live_analyze_wallet_endpoint (clock : string) (address : option string)
    (account : sum string account_info)
    (fetched : option (list (option live_tx) * list (option live_tx)))
  : reply live_wallet_analysis :=
  if falsy address then Failure 400 (Text "Address is required")
  else
    match account with
    | inl error => Failure 500 (Text error)
    | inr info =>
        match live_analysis_of clock (get_str address) info (get_live_transactions fetched 100) with
        | inl e => Failure 500 (StrOf (PythonError e))
        | inr result => Content result
        end
    end.


(** ** utilities/mcp/mcp_discovery.py: the class MCPDiscovery

    The file system and the JSON parser are parameters: [read_file path]
    is [None] when the file does not exist, [json_load text] is [None]
    when the text is not JSON, and [as_dict data] gives the entries of
    [data] when it is a dict. *)

Module Discovery.

Inductive error : Type :=
| AttributeError
| FileNotFoundError (message : string)
| ValueError (message : string)
| KeyError (message : string).

Section Config.

Variable json : Type.
Variable as_dict : json -> option (list (string * json)).
Variable read_file : string -> option string.
Variable json_load : string -> option json.

(* os.path.join(os.path.dirname(__file__), 'mcp_config.json') *)
Variable default_config_file : string.

(* The attributes of an MCPDiscovery object; config_file is None while
   the attribute has not been assigned. *)
Record t : Type := mk {
  config_file : option string;
  config : list (string * json)
}.

(* key in d, d[key] *)
Fixpoint lookup (key : string) (d : list (string * json)) : option json :=
  match d with
  | [] => None
  | (k, v) :: rest => if String.eqb k key then Some v else lookup key rest
  end.

(* _load_config, with the attribute self.config_file as it is *)
Definition load_config (attribute : option string) : sum error (list (string * json)) :=
  match attribute with
  | None => inl AttributeError
  | Some path =>
      match read_file path with
      | None => inl (FileNotFoundError ("Configuration file '" ++ path ++ "' not found.")%string)
      | Some text =>
          match json_load text with
          | None =>
              inl (ValueError
                     ("Error decoding JSON from the configuration file '" ++ path ++ "'.")%string)
          | Some data =>
              match as_dict data with
              | None => inl (ValueError "Invalid MCP configuration file format.")
              | Some entries => inr entries
              end
          end
      end
  end.

(* __init__(config_file): the attribute is assigned only when the
   argument is None. *)
Definition init (argument : option string) : sum error t :=
  let attribute :=
    match argument with
    | None => Some default_config_file
    | Some _ => None
    end in
  match load_config attribute with
  | inl e => inl e
  | inr entries => inr (mk attribute entries)
  end.

Definition list_servers (self : t) : sum error json :=
  match lookup "mcpServers" (config self) with
  | None => inl (KeyError "No 'mcpServers' key found in the configuration file.")
  | Some servers => inr servers
  end.

End Config.

End Discovery.

(** * Properties *)

(** ** Comparisons and division *)

Lemma Qlt_bool_iff (x y : Q) : Qlt_bool x y = true <-> x < y.
Proof.
  unfold Qlt_bool. rewrite negb_true_iff.
  split; intro H.
  - apply Qnot_le_lt. intro Hle. apply Qle_bool_iff in Hle. congruence.
  - destruct (Qle_bool y x) eqn:E; [| reflexivity].
    apply Qle_bool_iff in E. exfalso. exact (Qlt_not_le _ _ H E).
Qed.

Lemma Qlt_bool_false (x y : Q) : Qlt_bool x y = false <-> y <= x.
Proof.
  unfold Qlt_bool. rewrite negb_false_iff. apply Qle_bool_iff.
Qed.

Lemma Qle_bool_false (x y : Q) : Qle_bool x y = false <-> y < x.
Proof.
  rewrite <- Qlt_bool_iff. unfold Qlt_bool.
  destruct (Qle_bool x y); simpl; intuition congruence.
Qed.

Lemma Qlt_bool_spec (x y : Q) : BoolSpec (x < y) (y <= x) (Qlt_bool x y).
Proof.
  destruct (Qlt_bool x y) eqn:E; constructor.
  - now apply Qlt_bool_iff.
  - now apply Qlt_bool_false.
Qed.

Lemma Qle_bool_spec (x y : Q) : BoolSpec (x <= y) (y < x) (Qle_bool x y).
Proof.
  destruct (Qle_bool x y) eqn:E; constructor.
  - now apply Qle_bool_iff.
  - now apply Qle_bool_false.
Qed.

Lemma truediv_ok (x y : Q) : ~ y == 0 -> truediv x y = inr (x / y).
Proof.
  intro H. unfold truediv.
  destruct (Qeq_bool y 0) eqn:E; [| reflexivity].
  apply Qeq_bool_iff in E. contradiction.
Qed.

Lemma truediv_zero (x y : Q) : y == 0 -> truediv x y = inl ZeroDivisionError.
Proof.
  intro H. unfold truediv. apply Qeq_bool_iff in H. now rewrite H.
Qed.

Lemma min__spec (x y : Q) : min_ x y == Qmin x y.
Proof.
  unfold min_. destruct (Qlt_bool_spec y x) as [H | H].
  - symmetry. apply Q.min_r. now apply Qlt_le_weak.
  - symmetry. apply Q.min_l. exact H.
Qed.

(** ** Whale score *)

Section WhaleBands.

Variables balance total_supply : Q.
Hypothesis positive_balance : 0 < balance.
Hypothesis supply_not_zero : ~ total_supply == 0.

Let percentage_of_supply : Q := balance / total_supply * 100.

Lemma whale_score_unfold :
  calculate_whale_score balance total_supply =
    if Qle_bool 1 percentage_of_supply then inr 1
    else if Qle_bool (1 # 10) percentage_of_supply then inr (9 # 10)
    else if Qle_bool (1 # 100) percentage_of_supply then inr (7 # 10)
    else if Qle_bool (1 # 1000) percentage_of_supply then inr (5 # 10)
    else if Qle_bool (1 # 10000) percentage_of_supply then inr (3 # 10)
    else inr (1 # 10).
Proof.
  unfold calculate_whale_score.
  destruct (Qle_bool_spec balance 0) as [H | _].
  - exfalso. exact (Qlt_not_le _ _ positive_balance H).
  - rewrite (truediv_ok _ _ supply_not_zero). reflexivity.
Qed.

End WhaleBands.

Example whale_medium_band :
  calculate_whale_score 5000000 default_total_supply = inr (7 # 10).
Proof. reflexivity. Qed.

Example whale_breakpoints :
  map (fun b => calculate_whale_score b default_total_supply)
      [100000000; 99999999; 10000000; 9999999; 1000000; 999999;
       100000; 99999; 10001; 9999; 0; -5]
  = map inr [1; 9 # 10; 9 # 10; 7 # 10; 7 # 10; 5 # 10;
             5 # 10; 3 # 10; 3 # 10; 1 # 10; 0; 0].
Proof. reflexivity. Qed.




(** ** Lists of numbers *)

Lemma len_cons {A : Type} (x : A) (xs : list A) : 1 <= len (x :: xs).
Proof.
  unfold len. change 1 with (inject_Z 1). rewrite <- Zle_Qle.
  simpl List.length. lia.
Qed.

Lemma len_nonzero {A : Type} (x : A) (xs : list A) : ~ len (x :: xs) == 0.
Proof. pose proof (len_cons x xs). lra. Qed.

Lemma mean_cons (x : Q) (xs : list Q) :
  mean (x :: xs) = inr (sum_ (x :: xs) / len (x :: xs)).
Proof. reflexivity. Qed.

Lemma max__cases (x y : Q) : (max_ x y = x /\ y <= x) \/ (max_ x y = y /\ x < y).
Proof.
  unfold max_. destruct (Qlt_bool_spec x y); [right | left]; split; auto.
Qed.

Lemma fold_max_spec (rest : list Q) :
  forall x, let m := fold_left max_ rest x in
            (m = x \/ In m rest) /\ x <= m /\ forall y, In y rest -> y <= m.
Proof.
  induction rest as [| a rest IH]; intros x; simpl.
  - split; [now left |]. split; [lra | intros y []].
  - destruct (IH (max_ x a)) as [Hin [Hle Hall]].
    destruct (max__cases x a) as [[E Hxa] | [E Hxa]]; rewrite E in *.
    + split; [destruct Hin; auto |].
      split; [exact Hle |].
      intros y [<- | Hy]; [lra | auto].
    + split; [destruct Hin as [-> | Hin]; auto |].
      split; [lra |].
      intros y [<- | Hy]; [exact Hle | auto].
Qed.

Lemma max_list_cons (x : Q) (xs : list Q) :
  exists m, max_list (x :: xs) = inr m /\ is_maximum m (x :: xs).
Proof.
  exists (fold_left max_ xs x). split; [reflexivity |].
  destruct (fold_max_spec xs x) as [Hin [Hle Hall]].
  split.
  - destruct Hin as [-> | Hin]; [now left | now right].
  - intros y [<- | Hy]; auto.
Qed.

Lemma counterparties_spec (transactions : list tx) (a : string) :
  In a (counterparties transactions) <-> is_counterparty a transactions.
Proof.
  unfold is_counterparty.
  induction transactions as [| t rest IH]; simpl.
  - split; [intros [] | intros [t [[] _]]].
  - rewrite !in_app_iff, IH. split.
    + intros [H | [H | [u [Hu Hc]]]].
      * exists t. split; [now left |]. left.
        destruct (tx_from t); [destruct H as [-> | []]; reflexivity | destruct H].
      * exists t. split; [now left |]. right.
        destruct (tx_to t); [destruct H as [-> | []]; reflexivity | destruct H].
      * exists u. split; [now right | exact Hc].
    + intros [u [[<- | Hu] Hc]].
      * destruct Hc as [E | E]; rewrite E; simpl; auto.
      * right. right. exists u. auto.
Qed.

Lemma set__spec (xs : list string) :
  NoDup (set_ xs) /\ forall a, In a (set_ xs) <-> In a xs.
Proof.
  split; [apply NoDup_nodup | intro a; apply nodup_In].
Qed.

(** ** Risk factor *)

Lemma frequency_risk_band (n : Z) : frequency_band n (frequency_risk n).
Proof.
  unfold frequency_band, frequency_risk.
  destruct (Z.ltb_spec 1000 n); [| destruct (Z.ltb_spec 100 n)];
    repeat split; intros; try reflexivity; lia.
Qed.

Lemma counterparty_risk_band (ratio : Q) : diversity_band ratio (counterparty_risk ratio).
Proof.
  unfold diversity_band, counterparty_risk.
  destruct (Qlt_bool_spec ratio (1 # 10)); [| destruct (Qlt_bool_spec ratio (3 # 10))];
    repeat split; intros; try reflexivity; exfalso; lra.
Qed.

Lemma amount_risk_band (a : Q) (amounts : list Q) (balance : Q) :
  exists m s,
    amount_risk (a :: amounts) balance = inr [s] /\
    is_maximum m (a :: amounts) /\
    concentration_band m (sum_ (a :: amounts) / len (a :: amounts)) balance s.
Proof.
  destruct (max_list_cons a amounts) as [m [Hm Hmax]].
  unfold amount_risk. rewrite mean_cons, Hm. cbn [bind ret Monad_exc Monad_either].
  set (avg := sum_ (a :: amounts) / len (a :: amounts)).
  exists m.
  destruct (Qlt_bool_spec (balance * (5 # 10)) m);
    [| destruct (Qlt_bool_spec (balance * (1 # 10)) avg)];
    eexists; (split; [reflexivity |]); (split; [exact Hmax |]);
    unfold concentration_band; repeat split; intros; try reflexivity; exfalso; lra.
Qed.

Lemma tx_count_cons (t : tx) (rest : list tx) : (1 <= tx_count (t :: rest))%Z.
Proof. unfold tx_count. simpl List.length. lia. Qed.

Lemma ratio_ok (x : Q) (t : tx) (rest : list tx) :
  truediv x (inject_Z (Z.max (tx_count (t :: rest)) 1))
  = inr (x / inject_Z (tx_count (t :: rest))).
Proof.
  pose proof (tx_count_cons t rest) as H.
  rewrite Z.max_l by lia.
  apply truediv_ok. intro E.
  assert (1 <= inject_Z (tx_count (t :: rest))) as H1.
  { change 1 with (inject_Z 1). now rewrite <- Zle_Qle. }
  lra.
Qed.

Lemma mean_three (a b c : Q) : exists m, mean [a; b; c] = inr m /\ m == (a + b + c) / 3.
Proof.
  eexists. split; [reflexivity |].
  unfold sum_, len. simpl. field.
Qed.

Lemma risk_factor_cons (t : tx) (rest : list tx) (balance : Q) :
  let transactions := t :: rest in
  exists r max_amount unique frequency concentration diversity,
    calculate_risk_factor transactions balance = inr r /\
    is_maximum max_amount (map amount_of transactions) /\
    NoDup unique /\
    (forall a, In a unique <-> is_counterparty a transactions) /\
    frequency_band (tx_count transactions) frequency /\
    concentration_band max_amount
      (sum_ (map amount_of transactions) / len transactions) balance concentration /\
    diversity_band (len unique / inject_Z (tx_count transactions)) diversity /\
    r == Qmin ((frequency + concentration + diversity) / 3) 1.
Proof.
  intro transactions. subst transactions.
  destruct (amount_risk_band (amount_of t) (map amount_of rest) balance)
    as [m [s [Hrisk [Hmax Hband]]]].
  set (unique := set_ (counterparties (t :: rest))).
  set (ratio := len unique / inject_Z (tx_count (t :: rest))).
  destruct (mean_three (frequency_risk (tx_count (t :: rest))) s (counterparty_risk ratio))
    as [avg [Hmean Havg]].
  exists (min_ avg 1), m, unique, (frequency_risk (tx_count (t :: rest))), s,
    (counterparty_risk ratio).
  split.
  - unfold calculate_risk_factor.
    change (map amount_of (t :: rest)) with (amount_of t :: map amount_of rest).
    rewrite Hrisk. cbn [bind ret Monad_exc Monad_either].
    fold unique. rewrite ratio_ok. fold ratio.
    cbn [app]. rewrite Hmean. reflexivity.
  - split; [exact Hmax |].
    destruct (set__spec (counterparties (t :: rest))) as [Hnd Hin].
    split; [exact Hnd |].
    split; [intro a; fold unique in Hin; rewrite Hin; apply counterparties_spec |].
    split; [apply frequency_risk_band |].
    split.
    + replace (len (t :: rest)) with (len (amount_of t :: map amount_of rest)).
      * exact Hband.
      * unfold len. simpl List.length. now rewrite length_map.
    + split; [apply counterparty_risk_band |].
      rewrite min__spec. now rewrite Havg.
Qed.


Lemma risk_factor_total (transactions : list tx) (balance : Q) :
  exists r, calculate_risk_factor transactions balance = inr r.
Proof.
  destruct transactions as [| t rest].
  - eexists. reflexivity.
  - destruct (risk_factor_cons t rest balance) as (r & _ & _ & _ & _ & _ & Hr & _).
    exists r. exact Hr.
Qed.



Example risk_factor_two_transfers :
  exists r, calculate_risk_factor [transfer 600 "a" "b"; transfer 10 "a" "c"] 1000 = inr r /\
            r == 13 # 30.
Proof. eexists. split; reflexivity. Qed.

(** ** Influence score *)

Lemma influence_zero_balance (t : tx) (rest : list tx) (balance : Q) :
  balance == 0 -> calculate_influence_score (t :: rest) balance = inl ZeroDivisionError.
Proof.
  intro H. unfold calculate_influence_score.
  rewrite truediv_zero; [reflexivity |]. rewrite H. reflexivity.
Qed.

Lemma influence_returns (transactions : list tx) (balance : Q) :
  transactions = [] \/ ~ balance == 0 ->
  exists inf, calculate_influence_score transactions balance = inr inf.
Proof.
  intros [-> | H].
  - eexists. reflexivity.
  - destruct transactions as [| t rest]; [eexists; reflexivity |].
    unfold calculate_influence_score.
    rewrite truediv_ok; [eexists; reflexivity |].
    intro E. apply H. lra.
Qed.

Lemma influence_raises_iff (transactions : list tx) (balance : Q) :
  calculate_influence_score transactions balance = inl ZeroDivisionError <->
  transactions <> [] /\ balance == 0.
Proof.
  split.
  - intro H. destruct transactions as [| t rest]; [discriminate H |].
    split; [discriminate |].
    destruct (Qeq_dec balance 0) as [E | E]; [exact E |].
    destruct (influence_returns (t :: rest) balance (or_intror E)) as [inf Hinf].
    congruence.
  - intros [Hne E]. destruct transactions as [| t rest]; [congruence |].
    now apply influence_zero_balance.
Qed.

(** ** Transaction patterns *)

Lemma length_insert_sorted (x : Q) (xs : list Q) :
  List.length (insert_sorted x xs) = S (List.length xs).
Proof.
  induction xs as [| y rest IH]; simpl; [reflexivity |].
  destruct (Qle_bool x y); simpl; [reflexivity | now rewrite IH].
Qed.

Lemma length_sorted (xs : list Q) : List.length (sorted xs) = List.length xs.
Proof.
  induction xs as [| x rest IH]; simpl; [reflexivity |].
  now rewrite length_insert_sorted, IH.
Qed.

Lemma median_cons (x : Q) (xs : list Q) : exists m, median (x :: xs) = inr m.
Proof.
  unfold median. rewrite length_sorted. simpl List.length.
  cbv zeta. destruct (Nat.odd (S (List.length xs))); eexists; reflexivity.
Qed.

Lemma patterns_total (transactions : list tx) :
  exists p, analyze_transaction_patterns transactions = inr p.
Proof.
  destruct transactions as [| t rest]; [eexists; reflexivity |].
  unfold analyze_transaction_patterns.
  change (map amount_of (t :: rest)) with (amount_of t :: map amount_of rest).
  rewrite mean_cons.
  destruct (median_cons (amount_of t) (map amount_of rest)) as [md ->].
  destruct (max_list_cons (amount_of t) (map amount_of rest)) as [mx [-> _]].
  exc_simpl. rewrite !ratio_ok. exc_simpl.
  eexists. reflexivity.
Qed.

(** ** The analysis of one wallet *)

Lemma whale_score_default (balance : Q) :
  exists ws, calculate_whale_score balance default_total_supply = inr ws /\
             In ws [0; 1; 9 # 10; 7 # 10; 5 # 10; 3 # 10; 1 # 10].
Proof.
  unfold calculate_whale_score.
  destruct (Qle_bool balance 0); [eexists; split; [reflexivity | simpl; auto] |].
  rewrite truediv_ok by discriminate. exc_simpl.
  repeat (match goal with
          | |- context [Qle_bool ?a ?b] => destruct (Qle_bool a b)
          end);
    eexists; (split; [reflexivity | simpl; auto 10]).
Qed.

Lemma analyze_locals_inv (a : string) (balance : Q) (transactions : list tx) (l : Locals.t) :
  analyze_locals a balance transactions = inr l ->
  exists ws rf inf p,
    calculate_whale_score balance default_total_supply = inr ws /\
    calculate_risk_factor transactions balance = inr rf /\
    calculate_influence_score transactions balance = inr inf /\
    analyze_transaction_patterns transactions = inr p /\
    l = Locals.mk ws rf inf p (get_sei_specific_metrics a transactions)
          (ws * (3 # 10) + (1 - rf) * (3 # 10) + inf * (4 # 10))
          (classify ws inf (get_sei_specific_metrics a transactions)).
Proof.
  unfold analyze_locals. intro H.
  destruct (calculate_whale_score balance default_total_supply) as [e | ws];
    [discriminate H |].
  destruct (calculate_risk_factor transactions balance) as [e | rf];
    [discriminate H |].
  destruct (calculate_influence_score transactions balance) as [e | inf];
    [discriminate H |].
  destruct (analyze_transaction_patterns transactions) as [e | p];
    [discriminate H |].
  exc_simpl. injection H as <-.
  exists ws, rf, inf, p. repeat split; reflexivity.
Qed.

Lemma analyze_locals_returns (a : string) (balance : Q) (transactions : list tx) :
  transactions = [] \/ ~ balance == 0 ->
  exists l, analyze_locals a balance transactions = inr l.
Proof.
  intro H. unfold analyze_locals.
  destruct (whale_score_default balance) as [ws [-> _]].
  destruct (risk_factor_total transactions balance) as [rf ->].
  destruct (influence_returns transactions balance H) as [inf ->].
  destruct (patterns_total transactions) as [p ->].
  exc_simpl. eexists. reflexivity.
Qed.

Lemma analyze_locals_raises (a : string) (balance : Q) (t : tx) (rest : list tx) :
  balance == 0 -> analyze_locals a balance (t :: rest) = inl ZeroDivisionError.
Proof.
  intro H. unfold analyze_locals.
  destruct (whale_score_default balance) as [ws [-> _]].
  destruct (risk_factor_total (t :: rest) balance) as [rf ->].
  rewrite (influence_zero_balance t rest balance H).
  reflexivity.
Qed.

Lemma analyze_wallet_inv (now : string) (w : wallet_data) (r : wallet_analysis) :
  analyze_wallet now w = inr r ->
  exists l,
    analyze_locals (get_address w) (get_balance w) (get_transactions w) = inr l /\
    r = build_result now (get_address w) (get_balance w) (get_transactions w) l.
Proof.
  unfold analyze_wallet. intro H.
  destruct (analyze_locals (get_address w) (get_balance w) (get_transactions w))
    as [e | l]; [discriminate H |].
  exc_simpl. injection H as <-. exists l. split; reflexivity.
Qed.

Lemma analyze_wallet_returns (now : string) (w : wallet_data) :
  get_transactions w = [] \/ ~ get_balance w == 0 ->
  exists r, analyze_wallet now w = inr r.
Proof.
  intro H. unfold analyze_wallet.
  destruct (analyze_locals_returns (get_address w) _ _ H) as [l ->].
  exc_simpl. eexists. reflexivity.
Qed.

(** C1 (the code at the failing inputs): with a balance of zero and at
    least one transaction, the volume term divides by balance * 10 = 0
    without a guard: calculate_influence_score raises ZeroDivisionError,
    and so does the whole tool analyze_wallet. *)
Theorem influence_score_zero_balance_raises (transactions : list tx) :
  transactions <> [] ->
  calculate_influence_score transactions 0 = inl ZeroDivisionError /\
  forall now a, analyze_wallet now (wallet a 0 transactions) = inl ZeroDivisionError.
Proof.
  intro H. destruct transactions as [| t rest]; [congruence |].
  split.
  - apply influence_zero_balance. reflexivity.
  - intros now a. unfold analyze_wallet.
    change (get_balance (wallet a 0 (t :: rest))) with 0.
    change (get_transactions (wallet a 0 (t :: rest))) with (t :: rest).
    rewrite analyze_locals_raises; reflexivity.
Qed.

Lemma influence_score_zero_balance_raises_witness :
  [transfer 100 "sei1sender" "sei1recipient"] <> [] /\
  calculate_influence_score [transfer 100 "sei1sender" "sei1recipient"] 0
  = inl ZeroDivisionError.
Proof.
  split; [discriminate |].
  apply (influence_score_zero_balance_raises [transfer 100 "sei1sender" "sei1recipient"]).
  discriminate.
Defined.

(** C4: in the synthetic-data analyze_wallet, the overall score is exactly
    whale_score * 0.3 + (1 - risk_factor) * 0.3 + influence_score * 0.4 of
    the three scores the analyzer computed, and the result reports it
    rounded to three decimals; the analysis returns whenever the
    transaction list is empty or the balance is not zero; for a balance of
    5,000,000 (total supply 10,000,000,000) and no transactions the scores
    are 0.7, 0.5 and 0.1 and the overall score is 0.40. *)
Theorem overall_score_formula (now : string) (w : wallet_data) :
  (forall r, analyze_wallet now w = inr r ->
     exists l,
       analyze_locals (get_address w) (get_balance w) (get_transactions w) = inr l /\
       calculate_whale_score (get_balance w) default_total_supply
         = inr (Locals.whale_score l) /\
       calculate_risk_factor (get_transactions w) (get_balance w)
         = inr (Locals.risk_factor l) /\
       calculate_influence_score (get_transactions w) (get_balance w)
         = inr (Locals.influence_score l) /\
       Locals.overall_score l =
         Locals.whale_score l * (3 # 10) + (1 - Locals.risk_factor l) * (3 # 10)
         + Locals.influence_score l * (4 # 10) /\
       Scores.overall_score (scores r) = round3 (Locals.overall_score l)) /\
  (get_transactions w = [] \/ ~ get_balance w == 0 ->
     exists r, analyze_wallet now w = inr r) /\
  (forall a,
     exists l r,
       analyze_locals a 5000000 [] = inr l /\
       analyze_wallet now (wallet a 5000000 []) = inr r /\
       Locals.whale_score l = 7 # 10 /\
       Locals.risk_factor l = 5 # 10 /\
       Locals.influence_score l = 1 # 10 /\
       Locals.overall_score l == 4 # 10 /\
       Scores.overall_score (scores r) == 4 # 10).
Proof.
  split; [| split].
  - intros r Hr.
    destruct (analyze_wallet_inv now w r Hr) as [l [Hl ->]].
    exists l. split; [exact Hl |].
    destruct (analyze_locals_inv _ _ _ _ Hl) as (ws & rf & inf & p & Hws & Hrf & Hinf & _ & ->).
    simpl. repeat split; assumption.
  - apply analyze_wallet_returns.
  - intro a. eexists. eexists.
    split; [reflexivity |]. split; [reflexivity |].
    repeat split; reflexivity.
Qed.

Lemma overall_score_formula_witness :
  exists r, analyze_wallet "2025-01-01T00:00:00"
              (wallet "sei1abc" 1000 [transfer 100 "sei1abc" "sei1def"]) = inr r.
Proof.
  apply (overall_score_formula "2025-01-01T00:00:00"
           (wallet "sei1abc" 1000 [transfer 100 "sei1abc" "sei1def"])).
  right. discriminate.
Defined.

(** ** Classification *)

Lemma classify_label (ws inf : Q) (sei : sei_metrics) : In (classify ws inf sei) labels.
Proof.
  unfold classify, labels.
  destruct (Qle_bool (8 # 10) ws); [simpl; auto |].
  destruct (Qle_bool (5 # 10) ws); [simpl; auto |].
  destruct (Qle_bool (7 # 10) inf); [simpl; auto |].
  destruct (defi_participation sei); [simpl; auto 10 |].
  destruct (Qlt_bool 0 (staking_amount sei)); simpl; auto 10.
Qed.

(** C6: the classification is total and follows the first-match-wins
    precedence whale_score >= 0.8 (Whale), whale_score >= 0.5 (Large
    Holder), influence_score >= 0.7 (Active Trader), defi_participation
    (DeFi User), staking_amount > 0 (Staker), else Regular User: every
    combination of scores and metrics gets exactly one label of the fixed
    list, and it is the label analyze_wallet reports. *)
Theorem classification_precedence (ws inf : Q) (sei : sei_metrics) :
  In (classify ws inf sei) labels /\
  ((8 # 10) <= ws -> classify ws inf sei = "Whale") /\
  (ws < (8 # 10) -> (5 # 10) <= ws -> classify ws inf sei = "Large Holder") /\
  (ws < (5 # 10) -> (7 # 10) <= inf -> classify ws inf sei = "Active Trader") /\
  (ws < (5 # 10) -> inf < (7 # 10) -> defi_participation sei = true ->
     classify ws inf sei = "DeFi User") /\
  (ws < (5 # 10) -> inf < (7 # 10) -> defi_participation sei = false ->
     0 < staking_amount sei -> classify ws inf sei = "Staker") /\
  (ws < (5 # 10) -> inf < (7 # 10) -> defi_participation sei = false ->
     staking_amount sei <= 0 -> classify ws inf sei = "Regular User") /\
  (forall now w r,
     analyze_wallet now w = inr r ->
     exists l,
       analyze_locals (get_address w) (get_balance w) (get_transactions w) = inr l /\
       classification r =
         classify (Locals.whale_score l) (Locals.influence_score l)
           (get_sei_specific_metrics (get_address w) (get_transactions w))).
Proof.
  split; [apply classify_label |].
  unfold classify.
  repeat split; intros;
    try (destruct (Qle_bool_spec (8 # 10) ws);
         destruct (Qle_bool_spec (5 # 10) ws);
         destruct (Qle_bool_spec (7 # 10) inf);
         destruct (defi_participation sei);
         destruct (Qlt_bool_spec 0 (staking_amount sei));
         try reflexivity; try discriminate; exfalso; lra).
  match goal with H : analyze_wallet _ _ = inr _ |- _ =>
    destruct (analyze_wallet_inv _ _ _ H) as [l [Hl ->]] end.
  exists l. split; [exact Hl |].
  destruct (analyze_locals_inv _ _ _ _ Hl) as (ws' & rf & inf' & p & _ & _ & _ & _ & ->).
  reflexivity.
Qed.

Lemma classification_precedence_witness :
  classify (9 # 10) (1 # 10) (get_sei_specific_metrics "sei1abc" []) = "Whale" /\
  classify (3 # 10) (1 # 10) (get_sei_specific_metrics "sei1abc" []) = "Regular User".
Proof.
  split.
  - apply (classification_precedence (9 # 10) (1 # 10) (get_sei_specific_metrics "sei1abc" [])).
    discriminate.
  - apply (classification_precedence (3 # 10) (1 # 10) (get_sei_specific_metrics "sei1abc" []));
      [reflexivity | reflexivity | reflexivity | discriminate].
Defined.

(** ** Determinism and the clock *)

(** C2, as stated, fails: the result carries analysis_timestamp, the
    reading of the clock at the call, so the same snapshot scored at two
    instants gives two results that differ. *)
Lemma analysis_differs_with_clock :
  exists r1 r2,
    analyze_wallet "2025-01-01T00:00:00.000000" (wallet "sei1abc" 5000000 []) = inr r1 /\
    analyze_wallet "2025-01-01T00:00:00.000042" (wallet "sei1abc" 5000000 []) = inr r2 /\
    r1 <> r2.
Proof.
  eexists. eexists. split; [reflexivity |]. split; [reflexivity |].
  intro H. apply (f_equal analysis_timestamp) in H. discriminate H.
Qed.

Lemma analyze_wallet_timestamp (now1 now2 : string) (w : wallet_data) :
  analyze_wallet now2 w = exc_map (with_timestamp now2) (analyze_wallet now1 w).
Proof.
  unfold analyze_wallet, exc_map.
  destruct (analyze_locals (get_address w) (get_balance w) (get_transactions w));
    reflexivity.
Qed.

(** C2 (amended): scoring the same snapshot twice gives two results that
    are identical in every field except analysis_timestamp, which is the
    clock reading of each call: the result is a deterministic function of
    the snapshot and the clock, and the second call raises exactly when
    the first does. *)
Theorem analysis_deterministic_up_to_timestamp (now1 now2 : string) (w : wallet_data) :
  analyze_wallet now2 w = exc_map (with_timestamp now2) (analyze_wallet now1 w) /\
  (forall e, analyze_wallet now1 w = inl e -> analyze_wallet now2 w = inl e) /\
  (forall r1, analyze_wallet now1 w = inr r1 ->
     exists r2,
       analyze_wallet now2 w = inr r2 /\
       analysis_timestamp r1 = now1 /\ analysis_timestamp r2 = now2 /\
       address r1 = address r2 /\
       classification r1 = classification r2 /\
       scores r1 = scores r2 /\
       metrics r1 = metrics r2 /\
       transaction_patterns r1 = transaction_patterns r2 /\
       sei_specific r1 = sei_specific r2 /\
       assessment r1 = assessment r2 /\
       recommendations r1 = recommendations r2).
Proof.
  split; [apply analyze_wallet_timestamp |].
  split.
  - intros e H. rewrite (analyze_wallet_timestamp now1 now2), H. reflexivity.
  - intros r1 H. exists (with_timestamp now2 r1).
    split; [rewrite (analyze_wallet_timestamp now1 now2), H; reflexivity |].
    destruct (analyze_wallet_inv _ _ _ H) as [l [_ ->]].
    repeat split; reflexivity.
Qed.

Lemma analysis_deterministic_up_to_timestamp_witness :
  exists r2,
    analyze_wallet "2025-01-01T00:00:00.000042"
      (wallet "sei1abc" 1000 [transfer 100 "sei1abc" "sei1def"]) = inr r2.
Proof.
  destruct (analyze_wallet "2025-01-01T00:00:00.000000"
              (wallet "sei1abc" 1000 [transfer 100 "sei1abc" "sei1def"])) as [e | r1] eqn:E;
    [discriminate E |].
  destruct (proj2 (proj2 (analysis_deterministic_up_to_timestamp
                            "2025-01-01T00:00:00.000000" "2025-01-01T00:00:00.000042"
                            (wallet "sei1abc" 1000 [transfer 100 "sei1abc" "sei1def"])))
              r1 E) as [r2 [H _]].
  exists r2. exact H.
Defined.

(** ** Transaction kinds *)

Lemma sum_fold (xs : list Q) : forall acc, fold_left Qplus xs acc == acc + sum_ xs.
Proof.
  unfold sum_. induction xs as [| x rest IH]; intro acc; simpl.
  - lra.
  - rewrite (IH (acc + x)), (IH (0 + x)). lra.
Qed.

Lemma sum_app (xs ys : list Q) : sum_ (xs ++ ys) == sum_ xs + sum_ ys.
Proof.
  unfold sum_ at 1. rewrite fold_left_app. rewrite sum_fold.
  fold (sum_ xs). lra.
Qed.

Lemma sum_cons (x : Q) (xs : list Q) : sum_ (x :: xs) == x + sum_ xs.
Proof.
  unfold sum_ at 1. simpl. rewrite sum_fold. lra.
Qed.

Lemma staking_not_direction (t : tx) :
  is_staking t = true -> has_type "incoming" t = false /\ has_type "outgoing" t = false.
Proof.
  unfold is_staking, has_type. intro H.
  destruct (tx_type t) as [s |]; [| split; reflexivity].
  split.
  - destruct (String.eqb_spec s "incoming") as [-> | _]; [discriminate H | reflexivity].
  - destruct (String.eqb_spec s "outgoing") as [-> | _]; [discriminate H | reflexivity].
Qed.

Lemma count_txs_insert (cond : tx -> bool) (before after : list tx) (t : tx) :
  count_txs cond (before ++ t :: after) =
  ((if cond t then 1 else 0) + count_txs cond (before ++ after))%Z.
Proof.
  unfold count_txs. rewrite !filter_app. simpl.
  destruct (cond t); rewrite !length_app; simpl List.length; lia.
Qed.

(** C10: kind and direction are both read from the field 'type', so a
    transaction counted as staking ('type' contains "staking", whatever
    the case) is counted neither as incoming nor as outgoing ('type'
    equal to 'incoming' or 'outgoing'): the two selections of a
    transaction list are disjoint, and adding a staking-tagged transaction
    anywhere in the list adds its amount to staking_amount and one to
    validator_interactions and leaves the incoming and outgoing counts of
    the pattern analysis unchanged. *)
Theorem staking_disjoint_from_direction
    (transactions before after : list tx) (t : tx) (a : string) :
  (forall u, In u (filter is_staking transactions) ->
     ~ In u (filter (has_type "incoming") transactions) /\
     ~ In u (filter (has_type "outgoing") transactions)) /\
  (is_staking t = true ->
     has_type "incoming" t = false /\ has_type "outgoing" t = false /\
     staking_amount (get_sei_specific_metrics a (before ++ t :: after))
       == amount_of t + staking_amount (get_sei_specific_metrics a (before ++ after)) /\
     validator_interactions (get_sei_specific_metrics a (before ++ t :: after))
       = (1 + validator_interactions (get_sei_specific_metrics a (before ++ after)))%Z /\
     incoming_count (before ++ t :: after) = incoming_count (before ++ after) /\
     outgoing_count (before ++ t :: after) = outgoing_count (before ++ after)).
Proof.
  split.
  - intros u Hu. apply filter_In in Hu. destruct Hu as [_ Hu].
    destruct (staking_not_direction u Hu) as [Hi Ho].
    split; intro H; apply filter_In in H; destruct H as [_ H]; congruence.
  - intro H. destruct (staking_not_direction t H) as [Hi Ho].
    split; [exact Hi |]. split; [exact Ho |].
    split; [| split; [| split]].
    + unfold get_sei_specific_metrics. cbn [staking_amount].
      rewrite !filter_app. simpl filter. rewrite H.
      rewrite !map_app. simpl map. rewrite !sum_app, sum_cons. lra.
    + unfold get_sei_specific_metrics. cbn [validator_interactions].
      fold (count_txs is_staking (before ++ t :: after)).
      fold (count_txs is_staking (before ++ after)).
      rewrite count_txs_insert, H. reflexivity.
    + unfold incoming_count. rewrite count_txs_insert, Hi. reflexivity.
    + unfold outgoing_count. rewrite count_txs_insert, Ho. reflexivity.
Qed.

Lemma staking_disjoint_from_direction_witness :
  is_staking (mk_tx (Some 250) (Some "Staking/Delegate") (Some "sei1abc") (Some "sei1val")) = true /\
  incoming_count
    ([mk_tx (Some 5) (Some "incoming") None None] ++
     mk_tx (Some 250) (Some "Staking/Delegate") (Some "sei1abc") (Some "sei1val") :: [])
  = incoming_count ([mk_tx (Some 5) (Some "incoming") None None] ++ []).
Proof.
  split; [reflexivity |].
  apply (staking_disjoint_from_direction []
           [mk_tx (Some 5) (Some "incoming") None None] []
           (mk_tx (Some 250) (Some "Staking/Delegate") (Some "sei1abc") (Some "sei1val"))
           "sei1abc").
  reflexivity.
Defined.

(** ** Standard deviation *)

Module SquareRoot.
Import Reals Qreals.

End SquareRoot.




(** ** Comparison of addresses *)

Lemma compare_entries_length (now : string) (addresses : list wallet_data) :
  forall es, compare_entries now addresses = inr es ->
             List.length es = List.length addresses.
Proof.
  induction addresses as [| w rest IH]; intros es H; simpl in H.
  - injection H as <-. reflexivity.
  - destruct (compare_entry now w) as [e | entry]; [discriminate H |].
    destruct (compare_entries now rest) as [e | entries]; [discriminate H |].
    exc_simpl. injection H as <-. simpl. now rewrite (IH entries).
Qed.










(** C8: a comparison request with fewer than two addresses is answered by
    the error "At least 2 addresses required for comparison" and no
    comparison, in compare_addresses and in compare_sei_addresses alike;
    the live comparison also answers with an error when fewer than two of
    the addresses could be analysed. *)
Theorem compare_needs_two_addresses :
  (forall now d,
     (List.length (get_addresses d) < 2)%nat ->
     compare_addresses now d
     = inr (CompareError "At least 2 addresses required for comparison")) /\
  (forall (A C : Type) (analyze_wallet_live : string -> live_reply A)
          (summarise : list A -> exc C) (addresses : list string),
     (List.length addresses < 2)%nat ->
     compare_sei_addresses analyze_wallet_live summarise addresses
     = LiveCompareError "At least 2 addresses required for comparison") /\
  (forall (A C : Type) (analyze_wallet_live : string -> live_reply A)
          (summarise : list A -> exc C) (addresses : list string),
     (List.length (valid_analyses analyze_wallet_live addresses) < 2)%nat ->
     exists error,
       compare_sei_addresses analyze_wallet_live summarise addresses
       = LiveCompareError error).
Proof.
  split; [| split].
  - intros now d H. unfold compare_addresses.
    destruct (Z.ltb_spec (Z.of_nat (List.length (get_addresses d))) 2); [reflexivity | lia].
  - intros A C live summarise addresses H. unfold compare_sei_addresses.
    destruct (Z.ltb_spec (Z.of_nat (List.length addresses)) 2); [reflexivity | lia].
  - intros A C live summarise addresses H. unfold compare_sei_addresses.
    destruct (Z.ltb_spec (Z.of_nat (List.length addresses)) 2);
      [eexists; reflexivity |].
    destruct (Z.ltb_spec (Z.of_nat (List.length (valid_analyses live addresses))) 2);
      [eexists; reflexivity | lia].
Qed.

Lemma compare_needs_two_addresses_witness :
  compare_addresses "2025-01-01T00:00:00"
    (mk_address_data (Some [wallet "sei1a" 50000 []]))
  = inr (CompareError "At least 2 addresses required for comparison") /\
  exists error,
    compare_sei_addresses
      (fun a => if String.eqb a "sei1a" then LiveResult 1%nat else LiveFailed "All Sei endpoints failed")
      (fun l => inr (List.length l))
      ["sei1a"; "sei1b"; "sei1c"]
    = LiveCompareError error.
Proof.
  split.
  - apply (proj1 compare_needs_two_addresses). simpl. lia.
  - apply (proj2 (proj2 compare_needs_two_addresses)). simpl. lia.
Defined.

(** ** Missing addresses *)

(** C9, as stated, fails: analyze_wallet reads the address with the
    default 'unknown', so wallet data without an address is analysed
    under that name, and an address of any form is accepted as it is. *)
Lemma missing_address_is_analysed :
  exists r1 r2,
    analyze_wallet "2025-01-01T00:00:00" (mk_wallet_data None (Some 5000000) None) = inr r1 /\
    address r1 = "unknown" /\
    analyze_wallet "2025-01-01T00:00:00" (wallet "not an address" 5000000 []) = inr r2 /\
    address r2 = "not an address".
Proof.
  eexists. eexists. repeat split; reflexivity.
Qed.

(** C9 (amended): a request without an address, or with an empty one, is
    rejected only by the HTTP endpoint POST /analyze/wallet, as an HTTP
    error surfaced to the caller; the analyze-wallet tool itself
    substitutes 'unknown' for a missing address and returns an analysis
    whenever the scoring returns, and neither checks the form of an
    address that is present. *)
Theorem address_checked_by_endpoint_only (now : string) :
  (forall body, falsy (body_address body) = true ->
     analyze_wallet_endpoint now body
     = HTTPError 500 (StrOf (HTTPException 400 "Address is required"))) /\
  (forall w, wd_address w = None ->
     analyze_wallet now w
     = analyze_wallet now (mk_wallet_data (Some "unknown") (wd_balance w) (wd_transactions w))) /\
  (forall w, scorable w ->
     exists r, analyze_wallet now w = inr r /\ address r = get_address w) /\
  (forall body a, body_address body = Some a -> a <> EmptyString ->
     forall balance transactions,
       scorable (mk_wallet_data (Some a) (Some balance) (Some transactions)) ->
       body_balance body = Some balance -> body_transactions body = Some transactions ->
       exists r, analyze_wallet_endpoint now body = JSONResponse r /\ address r = a).
Proof.
  split; [| split; [| split]].
  - intros body H. unfold analyze_wallet_endpoint, analyze_wallet_endpoint_try.
    now rewrite H.
  - intros w H. unfold analyze_wallet, get_address, get_balance, get_transactions.
    simpl. rewrite H. reflexivity.
  - intros w H. destruct (analyze_wallet_returns now w H) as [r Hr].
    exists r. split; [exact Hr |].
    destruct (analyze_wallet_inv _ _ _ Hr) as [l [_ ->]]. reflexivity.
  - intros body a Ha Hne balance transactions Hs Hb Ht.
    unfold analyze_wallet_endpoint, analyze_wallet_endpoint_try.
    rewrite Ha, Hb, Ht. unfold falsy.
    destruct (String.eqb_spec a EmptyString) as [-> | _]; [congruence |].
    destruct (analyze_wallet_returns now _ Hs) as [r Hr].
    rewrite Hr. exists r. split; [reflexivity |].
    destruct (analyze_wallet_inv _ _ _ Hr) as [l [_ ->]]. reflexivity.
Qed.

Lemma address_checked_by_endpoint_only_witness :
  analyze_wallet_endpoint "2025-01-01T00:00:00" (mk_request_body None (Some 1000) None)
  = HTTPError 500 (StrOf (HTTPException 400 "Address is required")) /\
  exists r,
    analyze_wallet "2025-01-01T00:00:00" (mk_wallet_data None (Some 1000) None) = inr r /\
    address r = "unknown".
Proof.
  split.
  - apply (address_checked_by_endpoint_only "2025-01-01T00:00:00"). reflexivity.
  - apply (proj1 (proj2 (proj2 (address_checked_by_endpoint_only "2025-01-01T00:00:00")))
             (mk_wallet_data None (Some 1000) None)).
    left. reflexivity.
Defined.

(** * Further properties of the analyzer *)

(** ** Ranges and monotonicity of the three scores *)

Lemma whale_score_cases (balance total_supply : Q) :
  ~ total_supply == 0 ->
  let p := balance / total_supply * 100 in
  (balance <= 0 /\ calculate_whale_score balance total_supply = inr 0) \/
  (0 < balance /\
   ((1 <= p /\ calculate_whale_score balance total_supply = inr 1) \/
    ((1 # 10) <= p < 1 /\ calculate_whale_score balance total_supply = inr (9 # 10)) \/
    ((1 # 100) <= p < (1 # 10) /\ calculate_whale_score balance total_supply = inr (7 # 10)) \/
    ((1 # 1000) <= p < (1 # 100) /\ calculate_whale_score balance total_supply = inr (5 # 10)) \/
    ((1 # 10000) <= p < (1 # 1000) /\ calculate_whale_score balance total_supply = inr (3 # 10)) \/
    (p < (1 # 10000) /\ calculate_whale_score balance total_supply = inr (1 # 10)))).
Proof.
  intros Ht p.
  destruct (Qlt_le_dec 0 balance) as [Hb | Hb].
  - right. split; [exact Hb |].
    rewrite (whale_score_unfold balance total_supply Hb Ht). fold p. clearbody p.
    repeat (match goal with
            | |- context [Qle_bool ?a ?b] => destruct (Qle_bool_spec a b)
            end);
      try (left; split; [lra | reflexivity]);
      try (right; left; split; [lra | reflexivity]);
      try (right; right; left; split; [lra | reflexivity]);
      try (right; right; right; left; split; [lra | reflexivity]);
      try (right; right; right; right; left; split; [lra | reflexivity]);
      try (right; right; right; right; right; split; [lra | reflexivity]).
  - left. split; [exact Hb |].
    unfold calculate_whale_score. apply Qle_bool_iff in Hb. now rewrite Hb.
Qed.

Lemma percentage_monotone (b1 b2 total_supply : Q) :
  0 < total_supply -> b1 <= b2 ->
  b1 / total_supply * 100 <= b2 / total_supply * 100.
Proof.
  intros Ht Hb.
  assert (0 < / total_supply) as Hinv by now apply Qinv_lt_0_compat.
  assert (b1 / total_supply <= b2 / total_supply) as H.
  { unfold Qdiv. apply Qmult_le_compat_r; [exact Hb | now apply Qlt_le_weak]. }
  lra.
Qed.

(** X1: for a positive total supply the whale score never raises, is one
    of 0, 0.1, 0.3, 0.5, 0.7, 0.9 and 1.0, and is non-decreasing in the
    balance. *)
Theorem whale_score_monotone (b1 b2 total_supply : Q) :
  0 < total_supply -> b1 <= b2 ->
  exists s1 s2,
    calculate_whale_score b1 total_supply = inr s1 /\
    calculate_whale_score b2 total_supply = inr s2 /\
    In s1 [0; 1 # 10; 3 # 10; 5 # 10; 7 # 10; 9 # 10; 1] /\
    In s2 [0; 1 # 10; 3 # 10; 5 # 10; 7 # 10; 9 # 10; 1] /\
    s1 <= s2.
Proof.
  intros Ht Hb.
  assert (~ total_supply == 0) as Hne by lra.
  pose proof (percentage_monotone b1 b2 total_supply Ht Hb) as Hp.
  destruct (whale_score_cases b1 total_supply Hne) as [[H1 E1] | [H1 E1]];
    destruct (whale_score_cases b2 total_supply Hne) as [[H2 E2] | [H2 E2]].
  - exists 0, 0. rewrite E1, E2. simpl. repeat split; auto. lra.
  - decompose [and or] E2; clear E2;
      match goal with E : calculate_whale_score b2 _ = inr ?s |- _ =>
        exists 0, s; rewrite E1, E end;
      simpl; repeat split; auto 10; discriminate.
  - exfalso. lra.
  - decompose [and or] E1; clear E1; decompose [and or] E2; clear E2;
      match goal with
        Ea : calculate_whale_score b1 _ = inr ?s,
        Eb : calculate_whale_score b2 _ = inr ?s' |- _ =>
        exists s, s'; rewrite Ea, Eb end;
      (split; [reflexivity |]); (split; [reflexivity |]);
      (split; [simpl; auto 10 |]); (split; [simpl; auto 10 |]);
      try discriminate; exfalso; lra.
Qed.

Lemma whale_score_monotone_witness :
  exists s1 s2,
    calculate_whale_score 50000 default_total_supply = inr s1 /\
    calculate_whale_score 500000 default_total_supply = inr s2 /\
    s1 <= s2.
Proof.
  destruct (whale_score_monotone 50000 500000 default_total_supply)
    as (s1 & s2 & H1 & H2 & _ & _ & Hle); [reflexivity | discriminate |].
  exists s1, s2. auto.
Defined.

Lemma frequency_band_range (n : Z) (s : Q) :
  frequency_band n s ->
  (3 # 10) <= s <= (8 # 10) /\ (~ (1000 < n)%Z -> s <= 6 # 10).
Proof.
  intros (H1 & H2 & H3).
  destruct (Z_lt_le_dec 1000 n) as [Hn | Hn].
  - rewrite (H1 Hn). repeat split; try discriminate. intro; contradiction.
  - destruct (Z_lt_le_dec 100 n) as [Hm | Hm].
    + rewrite (H2 (conj Hm Hn)). repeat split; discriminate.
    + rewrite (H3 Hm). repeat split; discriminate.
Qed.

Lemma concentration_band_range (mx avg balance s : Q) :
  concentration_band mx avg balance s ->
  (3 # 10) <= s <= (7 # 10) /\ (s = 7 # 10 <-> balance * (5 # 10) < mx).
Proof.
  intros (H1 & H2 & H3).
  destruct (Qlt_le_dec (balance * (5 # 10)) mx) as [Hm | Hm].
  - rewrite (H1 Hm). repeat split; try discriminate; auto.
  - destruct (Qlt_le_dec (balance * (1 # 10)) avg) as [Ha | Ha].
    + rewrite (H2 Hm Ha). repeat split; try discriminate. intro; exfalso; lra.
    + rewrite (H3 Hm Ha). repeat split; try discriminate. intro; exfalso; lra.
Qed.

Lemma diversity_band_range (ratio s : Q) :
  diversity_band ratio s ->
  (3 # 10) <= s <= (8 # 10) /\ (~ ratio < (1 # 10) -> s <= 6 # 10).
Proof.
  intros (H1 & H2 & H3).
  destruct (Qlt_le_dec ratio (1 # 10)) as [Hr | Hr].
  - rewrite (H1 Hr). repeat split; try discriminate. intro; contradiction.
  - destruct (Qlt_le_dec ratio (3 # 10)) as [Hs | Hs].
    + rewrite (H2 (conj Hr Hs)). repeat split; discriminate.
    + rewrite (H3 Hs). repeat split; discriminate.
Qed.

(** X2: the risk factor always lies between 0.3 and 23/30 (about 0.767):
    it is a mean of sub-scores that are at least 0.3 and at most 0.8, 0.7
    and 0.8, so the final clamp to 1.0 never changes it. *)
Theorem risk_factor_range (transactions : list tx) (balance : Q) :
  exists r, calculate_risk_factor transactions balance = inr r /\
            (3 # 10) <= r <= (23 # 30).
Proof.
  destruct transactions as [| t rest].
  - eexists. split; [reflexivity |]. split; discriminate.
  - destruct (risk_factor_cons t rest balance)
      as (r & mx & u & f & c & d & Hr & _ & _ & _ & Hf & Hc & Hd & Hval).
    exists r. split; [exact Hr |].
    apply frequency_band_range in Hf. apply concentration_band_range in Hc.
    apply diversity_band_range in Hd.
    destruct Hf as [Hf _], Hc as [Hc _], Hd as [Hd _].
    assert ((f + c + d) / 3 <= 23 # 30) as Hup.
    { apply Qle_shift_div_r; [reflexivity | lra]. }
    assert ((3 # 10) <= (f + c + d) / 3) as Hlow.
    { apply Qle_shift_div_l; [reflexivity | lra]. }
    rewrite Hval. rewrite Q.min_l by lra. split; assumption.
Qed.

Lemma min__le_r (x y : Q) : min_ x y <= y.
Proof. rewrite min__spec. apply Q.le_min_r. Qed.

Lemma min__le_l (x y : Q) : min_ x y <= x.
Proof. rewrite min__spec. apply Q.le_min_l. Qed.

Lemma min__nonneg (x y : Q) : 0 <= x -> 0 <= y -> 0 <= min_ x y.
Proof. intros Hx Hy. rewrite min__spec. now apply Q.min_glb. Qed.

Lemma sum_nonneg (xs : list Q) : (forall x, In x xs -> 0 <= x) -> 0 <= sum_ xs.
Proof.
  induction xs as [| x rest IH]; intro H; [discriminate |].
  rewrite sum_cons.
  assert (0 <= x) by (apply H; now left).
  assert (0 <= sum_ rest) by (apply IH; intros y Hy; apply H; now right).
  lra.
Qed.

Lemma len_nonneg {A : Type} (xs : list A) : 0 <= len xs.
Proof.
  unfold len. change 0 with (inject_Z 0). rewrite <- Zle_Qle. lia.
Qed.

Lemma amounts_nonneg (transactions : list tx) :
  (forall t, In t transactions -> 0 <= amount_of t) ->
  forall x, In x (map amount_of transactions) -> 0 <= x.
Proof.
  intros H x Hx. apply in_map_iff in Hx. destruct Hx as [t [<- Ht]]. now apply H.
Qed.

Lemma influence_cons_value (t : tx) (rest : list tx) (balance : Q) :
  ~ balance == 0 ->
  let transactions := t :: rest in
  calculate_influence_score transactions balance =
    inr (min_ (min_ (sum_ (map amount_of transactions) / (balance * 10)) 1 * (4 # 10)
               + min_ (inject_Z (tx_count transactions) / 1000) 1 * (3 # 10)
               + min_ (len (set_ (counterparties transactions)) / 100) 1 * (3 # 10)) 1).
Proof.
  intros H transactions. unfold calculate_influence_score. subst transactions.
  rewrite truediv_ok; [reflexivity |]. intro E. apply H. lra.
Qed.

Lemma influence_upper (transactions : list tx) (balance inf : Q) :
  calculate_influence_score transactions balance = inr inf -> inf <= 1.
Proof.
  destruct transactions as [| t rest]; intro H.
  - injection H as <-. discriminate.
  - destruct (Qeq_dec balance 0) as [E | E].
    + rewrite (influence_zero_balance t rest balance E) in H. discriminate H.
    + rewrite (influence_cons_value t rest balance E) in H. injection H as <-.
      apply min__le_r.
Qed.

Lemma influence_range (transactions : list tx) (balance : Q) :
  transactions = [] \/ 0 < balance ->
  (forall t, In t transactions -> 0 <= amount_of t) ->
  exists inf, calculate_influence_score transactions balance = inr inf /\ 0 <= inf <= 1.
Proof.
  intros Hs Hpos.
  destruct transactions as [| t rest].
  - eexists. split; [reflexivity |]. split; discriminate.
  - destruct Hs as [Hs | Hb]; [discriminate Hs |].
    assert (~ balance == 0) as Hne by lra.
    rewrite (influence_cons_value t rest balance Hne).
    eexists. split; [reflexivity |]. split; [| apply min__le_r].
    apply min__nonneg; [| discriminate].
    assert (0 <= sum_ (map amount_of (t :: rest)) / (balance * 10)) as Hv.
    { apply Qle_shift_div_l; [lra |]. rewrite Qmult_0_l.
      apply sum_nonneg. now apply amounts_nonneg. }
    assert (0 <= inject_Z (tx_count (t :: rest)) / 1000) as Ha.
    { apply Qle_shift_div_l; [reflexivity |]. rewrite Qmult_0_l.
      pose proof (tx_count_cons t rest).
      change 0 with (inject_Z 0). rewrite <- Zle_Qle. lia. }
    assert (0 <= len (set_ (counterparties (t :: rest))) / 100) as Hn.
    { apply Qle_shift_div_l; [reflexivity |]. rewrite Qmult_0_l. apply len_nonneg. }
    pose proof (min__nonneg _ 1 Hv ltac:(discriminate)).
    pose proof (min__nonneg _ 1 Ha ltac:(discriminate)).
    pose proof (min__nonneg _ 1 Hn ltac:(discriminate)).
    lra.
Qed.

(** X3: an influence score that is returned is at most 1.0; with a
    positive balance and amounts that are not negative the function
    returns, and the score lies in [0, 1]. *)
Theorem influence_score_range (transactions : list tx) (balance : Q) :
  (forall inf, calculate_influence_score transactions balance = inr inf -> inf <= 1) /\
  (0 < balance -> (forall t, In t transactions -> 0 <= amount_of t) ->
   exists inf, calculate_influence_score transactions balance = inr inf /\ 0 <= inf <= 1).
Proof.
  split.
  - intros inf H. exact (influence_upper _ _ _ H).
  - intros Hb Hpos. apply influence_range; auto.
Qed.

Lemma influence_score_range_witness :
  exists inf,
    calculate_influence_score [transfer 100 "sei1abc" "sei1def"] 1000 = inr inf /\
    0 <= inf <= 1.
Proof.
  apply (influence_score_range [transfer 100 "sei1abc" "sei1def"] 1000).
  - reflexivity.
  - intros t [<- | []]. discriminate.
Defined.

(** ** Rounding *)

Lemma round_half_even_bounds (y : Q) (a b : Z) :
  inject_Z a <= y <= inject_Z b -> (a <= round_half_even y <= b)%Z.
Proof.
  intros [Ha Hb]. unfold round_half_even.
  pose proof (Qfloor_le y) as Hfl.
  assert (a <= Qfloor y)%Z as Haf.
  { rewrite <- (Qfloor_Z a). now apply Qfloor_resp_le. }
  assert (Qfloor y <= b)%Z as Hfb.
  { rewrite <- (Qfloor_Z b). now apply Qfloor_resp_le. }
  assert ((1 # 2) <= y - inject_Z (Qfloor y) -> (Qfloor y + 1 <= b)%Z) as Hup.
  { intro Hd. assert (inject_Z (Qfloor y) < inject_Z b) as Hlt by lra.
    rewrite <- Zlt_Qlt in Hlt. lia. }
  destruct (Qlt_bool_spec (y - inject_Z (Qfloor y)) (1 # 2)); [lia |].
  destruct (Qlt_bool_spec (1 # 2) (y - inject_Z (Qfloor y))).
  - specialize (Hup ltac:(lra)). lia.
  - destruct (Z.even (Qfloor y)); [lia |].
    specialize (Hup ltac:(lra)). lia.
Qed.

Lemma round3_unit (x : Q) : 0 <= x <= 1 -> 0 <= round3 x <= 1.
Proof.
  intros [H0 H1]. unfold round3.
  destruct (round_half_even_bounds (x * 1000) 0 1000) as [Hl Hu].
  { split; [change (inject_Z 0) with 0 | change (inject_Z 1000) with 1000]; lra. }
  rewrite Zle_Qle in Hl, Hu.
  change (inject_Z 0) with 0 in Hl. change (inject_Z 1000) with 1000 in Hu.
  split.
  - apply Qle_shift_div_l; [reflexivity | lra].
  - apply Qle_shift_div_r; [reflexivity | lra].
Qed.

(** ** Sei metrics *)

Lemma sei_score_cases (a : string) (transactions : list tx) :
  let m := get_sei_specific_metrics a transactions in
  exists stake defi active : Q,
    (stake = (if Qlt_bool 0 (staking_amount m) then 2 # 10 else 0)) /\
    (defi = (if defi_participation m then 2 # 10 else 0)) /\
    (active = (if (50 <? tx_count transactions)%Z then 1 # 10 else 0)) /\
    sei_network_score m == (5 # 10) + stake + defi + active.
Proof.
  intro m. subst m. unfold get_sei_specific_metrics.
  cbn [staking_amount defi_participation sei_network_score].
  set (delegation := sum_ (map amount_of (filter is_staking transactions))).
  set (participation := Nat.ltb 0 (List.length (filter is_defi transactions))).
  do 3 eexists. split; [reflexivity |]. split; [reflexivity |]. split; [reflexivity |].
  rewrite min__spec.
  destruct (Qlt_bool 0 delegation); destruct participation;
    destruct (50 <? tx_count transactions)%Z;
    rewrite Q.min_l by discriminate; reflexivity.
Qed.

Lemma sei_score_range (a : string) (transactions : list tx) :
  (5 # 10) <= sei_network_score (get_sei_specific_metrics a transactions) <= 1.
Proof.
  destruct (sei_score_cases a transactions) as (s & d & c & -> & -> & -> & ->).
  destruct (Qlt_bool 0 _); destruct (defi_participation _);
    destruct (50 <? tx_count transactions)%Z; split; discriminate.
Qed.

(** ** What the result of analyze_wallet can and cannot contain *)

Lemma risk_factor_cons_value (t : tx) (rest : list tx) (balance : Q) :
  let transactions := t :: rest in
  let ratio := len (set_ (counterparties transactions)) / inject_Z (tx_count transactions) in
  exists s r,
    amount_risk (map amount_of transactions) balance = inr [s] /\
    (3 # 10) <= s <= (7 # 10) /\
    calculate_risk_factor transactions balance = inr r /\
    r == Qmin ((frequency_risk (tx_count transactions) + s + counterparty_risk ratio) / 3) 1.
Proof.
  intros transactions ratio. subst transactions.
  destruct (amount_risk_band (amount_of t) (map amount_of rest) balance)
    as [m [s [Hrisk [_ Hband]]]].
  destruct (mean_three (frequency_risk (tx_count (t :: rest))) s (counterparty_risk ratio))
    as [avg [Hmean Havg]].
  exists s, (min_ avg 1).
  split; [exact Hrisk |].
  split; [apply (concentration_band_range _ _ _ _ Hband) |].
  split.
  - unfold calculate_risk_factor.
    change (map amount_of (t :: rest)) with (amount_of t :: map amount_of rest).
    change (map amount_of (t :: rest)) with (amount_of t :: map amount_of rest) in Hrisk.
    rewrite Hrisk. cbn [bind ret Monad_exc Monad_either].
    rewrite ratio_ok. fold ratio. cbn [app]. rewrite Hmean. reflexivity.
  - rewrite min__spec. now rewrite Havg.
Qed.

Lemma risk_factor_above_seven_tenths (transactions : list tx) (balance r : Q) :
  calculate_risk_factor transactions balance = inr r ->
  (7 # 10) < r ->
  (1000 < tx_count transactions)%Z /\
  len (set_ (counterparties transactions)) / inject_Z (tx_count transactions) < 1 # 10.
Proof.
  intros Hr Hhigh.
  destruct transactions as [| t rest].
  - injection Hr as <-. exfalso. revert Hhigh. discriminate.
  - destruct (risk_factor_cons_value t rest balance) as (s & r' & _ & Hs & Hr' & Hval).
    cbv zeta in Hr', Hval. rewrite Hr in Hr'. injection Hr' as <-.
    set (n := tx_count (t :: rest)) in *.
    set (ratio := len (set_ (counterparties (t :: rest))) / inject_Z n) in *.
    destruct (frequency_band_range n _ (frequency_risk_band n)) as [Hf Hf'].
    destruct (diversity_band_range ratio _ (counterparty_risk_band ratio)) as [Hd Hd'].
    assert ((7 # 10) < (frequency_risk n + s + counterparty_risk ratio) / 3) as Hmean.
    { rewrite Hval in Hhigh.
      destruct (Q.min_spec ((frequency_risk n + s + counterparty_risk ratio) / 3) 1)
        as [[_ E] | [Hle E]]; rewrite E in Hhigh; [exact Hhigh |].
      lra. }
    assert (frequency_risk n + s + counterparty_risk ratio <= 21 # 10 -> False) as Hsum.
    { intro Hle.
      assert ((frequency_risk n + s + counterparty_risk ratio) / 3 <= 7 # 10)
        by (apply Qle_shift_div_r; [reflexivity | lra]).
      lra. }
    split.
    + destruct (Z_lt_le_dec 1000 n) as [H | H]; [exact H |].
      exfalso. specialize (Hf' ltac:(lia)). apply Hsum. lra.
    + destruct (Qlt_le_dec ratio (1 # 10)) as [H | H]; [exact H |].
      exfalso. specialize (Hd' ltac:(lra)). apply Hsum. lra.
Qed.

Lemma risk_factor_below_recommendation (transactions : list tx) (balance r : Q) :
  calculate_risk_factor transactions balance = inr r -> Qlt_bool (8 # 10) r = false.
Proof.
  intro Hr.
  destruct transactions as [| t rest].
  - injection Hr as <-. reflexivity.
  - destruct (risk_factor_cons t rest balance)
      as (r' & mx & u & f & c & d & Hr' & _ & _ & _ & Hf & Hc & Hd & Hval).
    cbv zeta in Hr'. rewrite Hr in Hr'. injection Hr' as <-.
    apply frequency_band_range in Hf. apply concentration_band_range in Hc.
    apply diversity_band_range in Hd.
    destruct Hf as [Hf _], Hc as [Hc _], Hd as [Hd _].
    assert ((f + c + d) / 3 <= 23 # 30) as Hup.
    { apply Qle_shift_div_r; [reflexivity | lra]. }
    apply Qlt_bool_false. rewrite Hval. rewrite Q.min_l by lra. lra.
Qed.

Lemma risk_factor_cons_value_or_empty (transactions : list tx) (balance : Q) :
  exists r, calculate_risk_factor transactions balance = inr r /\
            (3 # 10) <= r <= (23 # 30).
Proof.
  destruct transactions as [| t rest].
  - eexists. split; [reflexivity |]. split; discriminate.
  - destruct (risk_factor_cons_value t rest balance) as (s & r & _ & Hs & Hr & Hval).
    cbv zeta in Hr, Hval.
    exists r. split; [exact Hr |].
    set (n := tx_count (t :: rest)) in *.
    set (ratio := len (set_ (counterparties (t :: rest))) / inject_Z n) in *.
    destruct (frequency_band_range n _ (frequency_risk_band n)) as [Hf _].
    destruct (diversity_band_range ratio _ (counterparty_risk_band ratio)) as [Hd _].
    assert ((frequency_risk n + s + counterparty_risk ratio) / 3 <= 23 # 30) as Hup.
    { apply Qle_shift_div_r; [reflexivity | lra]. }
    assert ((3 # 10) <= (frequency_risk n + s + counterparty_risk ratio) / 3) as Hlow.
    { apply Qle_shift_div_l; [reflexivity | lra]. }
    rewrite Hval. rewrite Q.min_l by lra. split; assumption.
Qed.

Lemma analyze_wallet_result (now : string) (w : wallet_data) (r : wallet_analysis) :
  analyze_wallet now w = inr r ->
  exists ws rf inf p,
    calculate_whale_score (get_balance w) default_total_supply = inr ws /\
    calculate_risk_factor (get_transactions w) (get_balance w) = inr rf /\
    calculate_influence_score (get_transactions w) (get_balance w) = inr inf /\
    analyze_transaction_patterns (get_transactions w) = inr p /\
    r = build_result now (get_address w) (get_balance w) (get_transactions w)
          (Locals.mk ws rf inf p
             (get_sei_specific_metrics (get_address w) (get_transactions w))
             (ws * (3 # 10) + (1 - rf) * (3 # 10) + inf * (4 # 10))
             (classify ws inf (get_sei_specific_metrics (get_address w) (get_transactions w)))).
Proof.
  intro H.
  destruct (analyze_wallet_inv _ _ _ H) as [l [Hl ->]].
  destruct (analyze_locals_inv _ _ _ _ Hl) as (ws & rf & inf & p & Hws & Hrf & Hinf & Hp & ->).
  exists ws, rf, inf, p. repeat split; assumption.
Qed.

(** X4: the recommendation "Monitor for wash trading" (risk factor above
    0.8) is never issued, because the risk factor cannot exceed 23/30; and
    a risk level "High" (risk factor above 0.7) is only reported for a
    wallet with more than 1000 transactions, always together with the
    factor "High transaction frequency". *)
Theorem high_risk_needs_high_frequency (now : string) (w : wallet_data) (r : wallet_analysis) :
  analyze_wallet now w = inr r ->
  ~ In "Monitor for wash trading" (recommendations r) /\
  (level (assessment r) = "High" ->
   (1000 < tx_count (get_transactions w))%Z /\
   In "High transaction frequency" (factors (assessment r))).
Proof.
  intro H.
  destruct (analyze_wallet_result _ _ _ H) as (ws & rf & inf & p & _ & Hrf & _ & _ & ->).
  split.
  - cbn [recommendations build_result]. unfold recommend.
    cbn [Locals.risk_factor Locals.influence_score Locals.sei_metrics_].
    rewrite (risk_factor_below_recommendation _ _ _ Hrf).
    unfold when.
    repeat (match goal with
            | |- context [if ?c then Some _ else None] => destruct c
            end);
      simpl; intuition discriminate.
  - cbn [assessment build_result level factors Locals.risk_factor].
    unfold risk_level. intro Hlevel.
    destruct (Qlt_bool_spec (7 # 10) rf) as [Hhigh | _];
      [| destruct (Qlt_bool (4 # 10) rf); discriminate Hlevel].
    destruct (risk_factor_above_seven_tenths _ _ _ Hrf Hhigh) as [Hn _].
    split; [exact Hn |].
    unfold risk_factors_found.
    apply Z.ltb_lt in Hn. rewrite Hn. simpl. now left.
Qed.

Lemma high_risk_needs_high_frequency_witness :
  exists r,
    analyze_wallet "2025-01-01T00:00:00"
      (wallet "sei1abc" 1000 [transfer 900 "sei1abc" "sei1def"]) = inr r /\
    ~ In "Monitor for wash trading" (recommendations r).
Proof.
  destruct (analyze_wallet "2025-01-01T00:00:00"
              (wallet "sei1abc" 1000 [transfer 900 "sei1abc" "sei1def"])) as [e | r] eqn:E;
    [discriminate E |].
  exists r. split; [reflexivity |].
  apply (high_risk_needs_high_frequency _ _ r E).
Defined.

(** X5: for a wallet without transactions, or with a positive balance, and
    amounts that are not negative, analyze_wallet returns and each of the
    five reported scores (whale, risk, influence, overall, Sei network)
    lies in [0, 1]. *)
Theorem reported_scores_in_unit_interval (now : string) (w : wallet_data) :
  get_transactions w = [] \/ 0 < get_balance w ->
  (forall t, In t (get_transactions w) -> 0 <= amount_of t) ->
  exists r,
    analyze_wallet now w = inr r /\
    0 <= Scores.whale_score (scores r) <= 1 /\
    0 <= Scores.risk_factor (scores r) <= 1 /\
    0 <= Scores.influence_score (scores r) <= 1 /\
    0 <= Scores.overall_score (scores r) <= 1 /\
    0 <= Scores.sei_network_score (scores r) <= 1.
Proof.
  intros Hs Hpos.
  assert (scorable w) as Hsc.
  { destruct Hs as [Hs | Hs]; [now left | right; lra]. }
  destruct (analyze_wallet_returns now w Hsc) as [r Hr].
  exists r. split; [exact Hr |].
  destruct (analyze_wallet_result _ _ _ Hr) as (ws & rf & inf & p & Hws & Hrf & Hinf & _ & ->).
  cbn [scores build_result Scores.whale_score Scores.risk_factor Scores.influence_score
         Scores.overall_score Scores.sei_network_score Locals.whale_score Locals.risk_factor
         Locals.influence_score Locals.overall_score Locals.sei_metrics_].
  assert (0 <= ws <= 1) as Hw.
  { destruct (whale_score_default (get_balance w)) as [ws' [Hws' Hin]].
    rewrite Hws in Hws'. injection Hws' as <-.
    simpl in Hin. decompose [or] Hin; subst; try contradiction; split; discriminate. }
  assert ((3 # 10) <= rf <= (23 # 30)) as Hr'.
  { destruct (risk_factor_cons_value_or_empty (get_transactions w) (get_balance w))
      as [rf' [Hrf' Hrange]].
    rewrite Hrf in Hrf'. injection Hrf' as <-. exact Hrange. }
  assert (0 <= inf <= 1) as Hi.
  { destruct (influence_range _ _ Hs Hpos) as [inf' [Hinf' Hrange]].
    rewrite Hinf in Hinf'. injection Hinf' as <-. exact Hrange. }
  pose proof (sei_score_range (get_address w) (get_transactions w)) as Hsei.
  repeat split; apply round3_unit; lra.
Qed.

(** ** Transaction patterns *)

Lemma insert_sorted_In (x y : Q) (xs : list Q) :
  In y (insert_sorted x xs) -> y = x \/ In y xs.
Proof.
  induction xs as [| z rest IH]; simpl.
  - intros [<- | []]. now left.
  - destruct (Qle_bool x z); simpl.
    + intros [<- | H]; auto.
    + intros [<- | H]; auto. destruct (IH H); auto.
Qed.

Lemma sorted_In (y : Q) (xs : list Q) : In y (sorted xs) -> In y xs.
Proof.
  induction xs as [| x rest IH]; simpl; [auto |].
  intro H. apply insert_sorted_In in H. destruct H as [-> | H]; auto.
Qed.

Lemma median_le (xs : list Q) (m bound : Q) :
  (forall x, In x xs -> x <= bound) -> median xs = inr m -> m <= bound.
Proof.
  intros Hall. unfold median.
  assert (forall i, (i < List.length (sorted xs))%nat -> nth i (sorted xs) 0 <= bound) as Hnth.
  { intros i Hi. apply Hall, sorted_In. now apply nth_In. }
  destruct (List.length (sorted xs)) as [| k] eqn:E; [discriminate |].
  cbv zeta.
  assert (Nat.div (S k) 2 < S k)%nat as Hi by (apply Nat.div_lt; lia).
  destruct (Nat.odd (S k)); intro H; injection H as <-.
  - now apply Hnth.
  - pose proof (Hnth (Nat.div (S k) 2) Hi).
    pose proof (Hnth (Nat.div (S k) 2 - 1)%nat ltac:(lia)).
    apply Qle_shift_div_r; [reflexivity |].
    change (fst (Nat.divmod k 1 0 0)) with (Nat.div (S k) 2). lra.
Qed.

Lemma len_cons_eq {A : Type} (x : A) (xs : list A) : len (x :: xs) == 1 + len xs.
Proof.
  unfold len. simpl List.length. rewrite Nat2Z.inj_succ, <- Z.add_1_l.
  rewrite inject_Z_plus. reflexivity.
Qed.

Lemma sum_le_bound (xs : list Q) (bound : Q) :
  (forall x, In x xs -> x <= bound) -> sum_ xs <= len xs * bound.
Proof.
  induction xs as [| x rest IH]; intro H.
  - change (sum_ []) with 0. change (len (@nil Q)) with 0. lra.
  - rewrite sum_cons, len_cons_eq.
    assert (x <= bound) by (apply H; now left).
    assert (sum_ rest <= len rest * bound) by (apply IH; intros y Hy; apply H; now right).
    lra.
Qed.

Lemma mean_le (x : Q) (xs : list Q) (bound : Q) :
  (forall y, In y (x :: xs) -> y <= bound) -> sum_ (x :: xs) / len (x :: xs) <= bound.
Proof.
  intro H. pose proof (len_cons x xs).
  apply Qle_shift_div_r; [lra |].
  rewrite Qmult_comm. now apply sum_le_bound.
Qed.

Lemma disjoint_filters {A : Type} (f g : A -> bool) (l : list A) :
  (forall x, f x = true -> g x = false) ->
  (List.length (filter f l) + List.length (filter g l) <= List.length l)%nat.
Proof.
  intro H. induction l as [| x rest IH]; simpl; [lia |].
  destruct (f x) eqn:Ef.
  - rewrite (H x Ef). simpl. lia.
  - destruct (g x); simpl; lia.
Qed.

Lemma incoming_not_outgoing (t : tx) :
  has_type "incoming" t = true -> has_type "outgoing" t = false.
Proof.
  unfold has_type. destruct (tx_type t) as [s |]; [| discriminate].
  destruct (String.eqb_spec s "incoming") as [-> | _]; [reflexivity | discriminate].
Qed.

Lemma direction_counts (transactions : list tx) :
  (0 <= incoming_count transactions)%Z /\ (0 <= outgoing_count transactions)%Z /\
  (incoming_count transactions + outgoing_count transactions <= tx_count transactions)%Z.
Proof.
  unfold incoming_count, outgoing_count, count_txs, tx_count.
  pose proof (disjoint_filters (has_type "incoming") (has_type "outgoing") transactions
                incoming_not_outgoing).
  lia.
Qed.

Lemma patterns_cons (t : tx) (rest : list tx) :
  let transactions := t :: rest in
  let amounts := map amount_of transactions in
  let n := tx_count transactions in
  exists md mx,
    median amounts = inr md /\
    is_maximum mx amounts /\
    analyze_transaction_patterns transactions =
      inr (Patterns {|
        primary_pattern :=
          match pattern_of n (incoming_count transactions) (outgoing_count transactions)
                  (sum_ amounts / len amounts) md with
          | p :: _ => p
          | [] => "unknown"
          end;
        transaction_count := n;
        average_amount := sum_ amounts / len amounts;
        median_amount := md;
        max_amount := mx;
        incoming_ratio := inject_Z (incoming_count transactions) / inject_Z n;
        outgoing_ratio := inject_Z (outgoing_count transactions) / inject_Z n;
        patterns := pattern_of n (incoming_count transactions) (outgoing_count transactions)
                      (sum_ amounts / len amounts) md
      |}).
Proof.
  intros transactions amounts n. subst transactions amounts n.
  change (map amount_of (t :: rest)) with (amount_of t :: map amount_of rest).
  destruct (median_cons (amount_of t) (map amount_of rest)) as [md Hmd].
  destruct (max_list_cons (amount_of t) (map amount_of rest)) as [mx [Hmx Hmax]].
  exists md, mx. split; [exact Hmd |]. split; [exact Hmax |].
  unfold analyze_transaction_patterns.
  change (map amount_of (t :: rest)) with (amount_of t :: map amount_of rest).
  rewrite mean_cons, Hmd, Hmx.
  exc_simpl. rewrite !ratio_ok. exc_simpl.
  reflexivity.
Qed.

(** X6: the pattern analysis never raises. Without transactions it
    reports "no_activity"; otherwise it reports exactly one pattern, one
    of the five tags, the number of transactions, incoming and outgoing
    ratios that are not negative and sum to at most 1, and a mean and a
    median amount that do not exceed the largest amount. *)
Theorem pattern_report_invariants (transactions : list tx) :
  exists p,
    analyze_transaction_patterns transactions = inr p /\
    match p with
    | NoActivity pattern _ => transactions = [] /\ pattern = "no_activity"
    | Patterns s =>
        transactions <> [] /\
        transaction_count s = tx_count transactions /\
        patterns s = [primary_pattern s] /\
        In (primary_pattern s)
           ["high_frequency_trader"; "accumulator"; "distributor";
            "irregular_amounts"; "regular_user"] /\
        0 <= incoming_ratio s /\ 0 <= outgoing_ratio s /\
        incoming_ratio s + outgoing_ratio s <= 1 /\
        average_amount s <= max_amount s /\
        median_amount s <= max_amount s
    end.
Proof.
  destruct transactions as [| t rest].
  - eexists. split; [reflexivity |]. split; reflexivity.
  - destruct (patterns_cons t rest) as (md & mx & Hmd & [Hin Hmax] & ->).
    eexists. split; [reflexivity |].
    cbn [transaction_count patterns primary_pattern incoming_ratio outgoing_ratio
           average_amount median_amount max_amount].
    set (n := tx_count (t :: rest)).
    destruct (direction_counts (t :: rest)) as (Hi & Ho & Hsum). fold n in Hsum.
    pose proof (tx_count_cons t rest) as Hn. fold n in Hn.
    assert (1 <= inject_Z n) as Hn' by (change 1 with (inject_Z 1); now rewrite <- Zle_Qle).
    split; [discriminate |]. split; [reflexivity |].
    split; [| split].
    + unfold pattern_of.
      repeat (match goal with |- context [if ?c then _ else _] => destruct c end); reflexivity.
    + unfold pattern_of.
      repeat (match goal with |- context [if ?c then _ else _] => destruct c end);
        simpl; auto 10.
    + rewrite Zle_Qle in Hi, Ho, Hsum. rewrite inject_Z_plus in Hsum.
      change (inject_Z 0) with 0 in Hi, Ho.
      split; [apply Qle_shift_div_l; lra |].
      split; [apply Qle_shift_div_l; lra |].
      split.
      * setoid_replace (inject_Z (incoming_count (t :: rest)) / inject_Z n
                        + inject_Z (outgoing_count (t :: rest)) / inject_Z n)
          with ((inject_Z (incoming_count (t :: rest))
                 + inject_Z (outgoing_count (t :: rest))) / inject_Z n)
          by (field; lra).
        apply Qle_shift_div_r; lra.
      * split; [now apply mean_le | exact (median_le _ _ _ Hmax Hmd)].
Qed.

(** ** Sei metrics and the advice derived from them *)

Lemma sei_score_above (a : string) (transactions : list tx) :
  let m := get_sei_specific_metrics a transactions in
  (8 # 10) < sei_network_score m <-> 0 < staking_amount m /\ defi_participation m = true.
Proof.
  intro m. destruct (sei_score_cases a transactions) as (s & d & c & Hs & Hd & Hc & Hval).
  fold m in Hs, Hd, Hval. rewrite Hval, Hs, Hd, Hc.
  destruct (Qlt_bool_spec 0 (staking_amount m)) as [Hst | Hst];
    destruct (defi_participation m);
    destruct (50 <? tx_count transactions)%Z;
    split; intro H;
    try (split; [assumption | reflexivity]);
    try reflexivity;
    try (exfalso; revert H; discriminate);
    try (destruct H as [H1 H2]; try discriminate H2; exfalso; lra).
Qed.

(** X7: the Sei network score is 0.5 plus 0.2 for a positive staking
    amount, 0.2 for DeFi participation and 0.1 for more than 50
    transactions, so it lies in [0.5, 1] and exceeds 0.8 exactly when the
    wallet both stakes and takes part in DeFi; the estimated rewards are
    6.8% of the staking amount; the validator interactions are at most
    the number of transactions; the address argument is never used. *)
Theorem sei_metrics_invariants (a : string) (transactions : list tx) :
  let m := get_sei_specific_metrics a transactions in
  (5 # 10) <= sei_network_score m <= 1 /\
  ((8 # 10) < sei_network_score m <->
     0 < staking_amount m /\ defi_participation m = true) /\
  estimated_rewards m == staking_amount m * (68 # 1000) /\
  (0 <= validator_interactions m <= tx_count transactions)%Z /\
  (defi_participation m = true <->
     exists t, In t transactions /\ String.prefix "sei1" (get_str (tx_to t)) = true) /\
  (forall a', get_sei_specific_metrics a' transactions = m).
Proof.
  intro m.
  split; [apply sei_score_range |].
  split; [apply sei_score_above |].
  split; [subst m; unfold get_sei_specific_metrics, inflation_rate;
          cbn [estimated_rewards staking_amount]; field |].
  split.
  { subst m. unfold get_sei_specific_metrics, tx_count. cbn [validator_interactions].
    pose proof (filter_length_le is_staking transactions). lia. }
  split; [| reflexivity].
  subst m. unfold get_sei_specific_metrics. cbn [defi_participation].
  rewrite Nat.ltb_lt. split.
  - intro H. destruct (filter is_defi transactions) as [| t rest] eqn:E;
      [simpl in H; lia |].
    assert (In t (filter is_defi transactions)) as Hin by (rewrite E; now left).
    apply filter_In in Hin. exists t. exact Hin.
  - intros [t Ht]. pose proof (proj2 (filter_In is_defi t transactions) Ht) as Hin.
    destruct (filter is_defi transactions); [destruct Hin | simpl; lia].
Qed.

Lemma not_none_when_In (text : string) (options : list (option string)) :
  In text (not_none options) <-> In (Some text) options.
Proof.
  induction options as [| o rest IH]; simpl; [tauto |].
  destruct o as [s |]; simpl; rewrite IH; split.
  - intros [-> | H]; auto.
  - intros [H | H]; [injection H as ->; now left | now right].
  - auto.
  - intros [H | H]; [discriminate H | exact H].
Qed.

Lemma when_Some (cond : bool) (text other : string) :
  when cond text = Some other <-> cond = true /\ text = other.
Proof.
  unfold when. destruct cond; split.
  - intro H. injection H as ->. auto.
  - intros [_ ->]. reflexivity.
  - discriminate.
  - intros [H _]. discriminate H.
Qed.

(** X8: in the result of analyze_wallet the advice "Strong network
    participant" appears exactly when the wallet has a positive staking
    amount and DeFi participation, and "Consider for validator program"
    exactly when the staking amount exceeds 1,000,000. *)
Theorem network_recommendations (now : string) (w : wallet_data) (r : wallet_analysis) :
  analyze_wallet now w = inr r ->
  (In "Strong network participant" (recommendations r) <->
     0 < staking_amount (sei_specific r) /\ defi_participation (sei_specific r) = true) /\
  (In "Consider for validator program" (recommendations r) <->
     1000000 < staking_amount (sei_specific r)).
Proof.
  intro H.
  destruct (analyze_wallet_result _ _ _ H) as (ws & rf & inf & p & _ & _ & _ & _ & ->).
  cbn [recommendations sei_specific build_result]. unfold recommend.
  cbn [Locals.sei_metrics_ Locals.risk_factor Locals.influence_score].
  split.
  - rewrite <- (sei_score_above (get_address w) (get_transactions w)).
    rewrite not_none_when_In. cbn [In]. rewrite !when_Some.
    split.
    + intros [[_ E] | [[_ E] | [[E _] | [[_ E] | []]]]]; try discriminate E.
      now apply Qlt_bool_iff.
    + intro E. right. right. left. split; [now apply Qlt_bool_iff | reflexivity].
  - rewrite not_none_when_In. cbn [In]. rewrite !when_Some.
    split.
    + intros [[_ E] | [[_ E] | [[_ E] | [[E _] | []]]]]; try discriminate E.
      now apply Qlt_bool_iff.
    + intro E. right. right. right. left. split; [now apply Qlt_bool_iff | reflexivity].
Qed.

Lemma network_recommendations_witness :
  exists r,
    analyze_wallet "2025-01-01T00:00:00"
      (wallet "sei1abc" 1000
         [mk_tx (Some 250) (Some "staking") (Some "sei1abc") (Some "sei1validator")]) = inr r /\
    In "Strong network participant" (recommendations r).
Proof.
  destruct (analyze_wallet "2025-01-01T00:00:00"
              (wallet "sei1abc" 1000
                 [mk_tx (Some 250) (Some "staking") (Some "sei1abc") (Some "sei1validator")]))
    as [e | r] eqn:E; [discriminate E |].
  exists r. split; [reflexivity |].
  apply (network_recommendations _ _ r E).
  injection E as <-. split; reflexivity.
Defined.

Lemma existsb_above_max (xs : list Q) (bound mx : Q) :
  is_maximum mx xs ->
  (existsb (fun x => Qlt_bool bound x) xs = true <-> bound < mx).
Proof.
  intros [Hin Hmax]. rewrite existsb_exists. split.
  - intros [x [Hx Hlt]]. apply Qlt_bool_iff in Hlt.
    specialize (Hmax x Hx). lra.
  - intro H. exists mx. split; [exact Hin | now apply Qlt_bool_iff].
Qed.

Lemma amount_risk_large (amounts : list Q) (balance : Q) :
  amount_risk amounts balance = inr [7 # 10] <->
  existsb (fun x => Qlt_bool (balance * (5 # 10)) x) amounts = true.
Proof.
  destruct amounts as [| a rest]; [split; discriminate |].
  destruct (amount_risk_band a rest balance) as (m & s & Hs & Hmax & Hband).
  rewrite (existsb_above_max _ _ _ Hmax), Hs.
  destruct (concentration_band_range _ _ _ _ Hband) as [_ Hiff].
  rewrite <- Hiff. split; intro H; [now injection H | now subst].
Qed.

Lemma existsb_amounts (bound : Q) (transactions : list tx) :
  existsb (fun x => Qlt_bool bound x) (map amount_of transactions)
  = existsb (fun t => Qlt_bool bound (amount_of t)) transactions.
Proof.
  induction transactions as [| t rest IH]; simpl; [reflexivity | now rewrite IH].
Qed.

(** X9: the factors of the risk assessment agree with the risk factor's
    sub-scores: "Large transaction amounts" is listed exactly when the
    amount sub-score is 0.7 (some amount exceeds half the balance), and
    "High transaction frequency" exactly when there are more than 1000
    transactions; a wallet without transactions has no factor. *)
Theorem risk_factors_agree_with_subscores (now : string) (w : wallet_data) (r : wallet_analysis) :
  analyze_wallet now w = inr r ->
  (In "Large transaction amounts" (factors (assessment r)) <->
     amount_risk (map amount_of (get_transactions w)) (get_balance w) = inr [7 # 10]) /\
  (In "High transaction frequency" (factors (assessment r)) <->
     (1000 < tx_count (get_transactions w))%Z) /\
  (get_transactions w = [] -> factors (assessment r) = []).
Proof.
  intro H.
  destruct (analyze_wallet_result _ _ _ H) as (ws & rf & inf & p & _ & _ & _ & _ & ->).
  cbn [assessment factors build_result]. unfold risk_factors_found.
  split; [| split].
  - rewrite amount_risk_large, not_none_when_In. cbn [In]. rewrite !when_Some.
    rewrite existsb_amounts.
    split.
    + intros [[_ E] | [[_ E] | [[E _] | []]]]; try discriminate E. exact E.
    + intro E. right. right. left. split; [exact E | reflexivity].
  - rewrite not_none_when_In. cbn [In]. rewrite !when_Some.
    split.
    + intros [[E _] | [[_ E] | [[_ E] | []]]]; try discriminate E. now apply Z.ltb_lt.
    + intro E. left. split; [now apply Z.ltb_lt | reflexivity].
  - intros ->. reflexivity.
Qed.

Lemma risk_factors_agree_with_subscores_witness :
  exists r,
    analyze_wallet "2025-01-01T00:00:00"
      (wallet "sei1abc" 1000 [transfer 900 "sei1abc" "sei1def"]) = inr r /\
    In "Large transaction amounts" (factors (assessment r)).
Proof.
  destruct (analyze_wallet "2025-01-01T00:00:00"
              (wallet "sei1abc" 1000 [transfer 900 "sei1abc" "sei1def"])) as [e | r] eqn:E;
    [discriminate E |].
  exists r. split; [reflexivity |].
  apply (risk_factors_agree_with_subscores _ _ r E). reflexivity.
Defined.

Lemma reported_scores_in_unit_interval_witness :
  exists r,
    analyze_wallet "2025-01-01T00:00:00"
      (wallet "sei1abc" 1000 [transfer 900 "sei1abc" "sei1def"]) = inr r /\
    0 <= Scores.overall_score (scores r) <= 1.
Proof.
  destruct (reported_scores_in_unit_interval "2025-01-01T00:00:00"
              (wallet "sei1abc" 1000 [transfer 900 "sei1abc" "sei1def"]))
    as (r & Hr & _ & _ & _ & Ho & _).
  - right. reflexivity.
  - intros t [<- | []]. discriminate.
  - exists r. split; assumption.
Defined.

(** ** More on the comparison of addresses *)

Lemma compare_entry_clock (now1 now2 : string) (w : wallet_data) :
  compare_entry now1 w = compare_entry now2 w.
Proof.
  unfold compare_entry.
  rewrite (analyze_wallet_timestamp now1 now2 w). unfold exc_map.
  destruct (analyze_wallet now1 w); reflexivity.
Qed.

Lemma compare_entries_clock (now1 now2 : string) (addresses : list wallet_data) :
  compare_entries now1 addresses = compare_entries now2 addresses.
Proof.
  induction addresses as [| w rest IH]; simpl; [reflexivity |].
  now rewrite (compare_entry_clock now1 now2 w), IH.
Qed.

(** X10: the comparison does not depend on the clock: the time stamps of
    the analyses it runs are dropped, so the same request gives the same
    reply (or raises the same exception) at any two instants. *)
Theorem compare_addresses_ignores_clock (now1 now2 : string) (d : address_data) :
  compare_addresses now1 d = compare_addresses now2 d.
Proof.
  unfold compare_addresses.
  now rewrite (compare_entries_clock now1 now2).
Qed.










Lemma compare_entries_fields (now : string) (addresses : list wallet_data) :
  forall es, compare_entries now addresses = inr es ->
    map ce_address es = map get_address addresses /\
    map ce_balance es = map get_balance addresses /\
    map ce_tx_count es = map (fun w => tx_count (get_transactions w)) addresses /\
    Forall2 (fun w e =>
               exists r, analyze_wallet now w = inr r /\
                         ce_whale_score e = Scores.whale_score (scores r) /\
                         ce_risk_factor e = Scores.risk_factor (scores r) /\
                         ce_influence_score e = Scores.influence_score (scores r) /\
                         ce_classification e = classification r)
            addresses es.
Proof.
  induction addresses as [| w rest IH]; intros es H; simpl in H.
  - injection H as <-. repeat split; constructor.
  - unfold compare_entry in H.
    destruct (analyze_wallet now w) as [e | r] eqn:Er; [discriminate H |].
    exc_simpl.
    destruct (compare_entries now rest) as [e | entries]; [discriminate H |].
    exc_simpl. injection H as <-.
    destruct (IH entries eq_refl) as (Ha & Hb & Hc & Hall).
    simpl. rewrite Ha, Hb, Hc.
    split; [reflexivity |]. split; [reflexivity |]. split; [reflexivity |].
    constructor; [| exact Hall].
    exists r. split; [exact Er |]. repeat split; reflexivity.
Qed.

Lemma count_above_bounds (bound : Q) (xs : list Q) :
  (0 <= count_above bound xs <= Z.of_nat (List.length xs))%Z.
Proof.
  unfold count_above.
  pose proof (filter_length_le (fun x => Qlt_bool bound x) xs). lia.
Qed.

Lemma max_list_is_maximum (xs : list Q) (m : Q) :
  max_list xs = inr m -> is_maximum m xs.
Proof.
  destruct xs as [| x rest]; [discriminate |].
  destruct (max_list_cons x rest) as [m' [Hm' Hmax]].
  intro H. rewrite H in Hm'. injection Hm' as <-. exact Hmax.
Qed.

(** X12: a comparison that is produced lists the wallets in the order of
    the request, each with its own address, balance and transaction count
    and the rounded scores and classification of its analysis; it counts
    all of them in total_addresses, reports as highest whale score and
    highest risk the largest of the listed values, and its two counters
    (whale score above 0.7, risk factor above 0.7) never exceed the number
    of addresses. *)
Theorem comparison_summary_invariants (now : string) (d : address_data) (c : comparison) :
  compare_addresses now d = inr (Comparison c) ->
  total_addresses c = Z.of_nat (List.length (get_addresses d)) /\
  map ce_address (individual_analysis c) = map get_address (get_addresses d) /\
  map ce_balance (individual_analysis c) = map get_balance (get_addresses d) /\
  map ce_tx_count (individual_analysis c)
    = map (fun w => tx_count (get_transactions w)) (get_addresses d) /\
  Forall2 (fun w e =>
             exists r, analyze_wallet now w = inr r /\
                       ce_whale_score e = Scores.whale_score (scores r) /\
                       ce_risk_factor e = Scores.risk_factor (scores r) /\
                       ce_influence_score e = Scores.influence_score (scores r) /\
                       ce_classification e = classification r)
          (get_addresses d) (individual_analysis c) /\
  is_maximum (highest_whale_score c) (map ce_whale_score (individual_analysis c)) /\
  is_maximum (highest_risk c) (map ce_risk_factor (individual_analysis c)) /\
  (0 <= whale_concentration c <= total_addresses c)%Z /\
  (0 <= high_risk_addresses c <= total_addresses c)%Z.
Proof.
  unfold compare_addresses, stdev_lt. intro H.
  destruct (Z.ltb_spec (Z.of_nat (List.length (get_addresses d))) 2);
    [discriminate H |].
  destruct (compare_entries now (get_addresses d)) as [e | es] eqn:Hes; [discriminate H |].
  exc_simpl.
  destruct (max_list (map ce_whale_score es)) as [e | hw] eqn:Hhw; [discriminate H |].
  destruct (max_list (map ce_risk_factor es)) as [e | hr] eqn:Hhr; [discriminate H |].
  destruct (mean (map ce_whale_score es)) as [e | mw]; [discriminate H |].
  destruct (mean (map ce_risk_factor es)) as [e | mr]; [discriminate H |].
  destruct (variance (map ce_whale_score es)) as [e | v]; [discriminate H |].
  exc_simpl. injection H as <-.
  cbn [total_addresses individual_analysis highest_whale_score highest_risk
         whale_concentration high_risk_addresses].
  destruct (compare_entries_fields now _ es Hes) as (Ha & Hb & Hc & Hall).
  pose proof (compare_entries_length now _ es Hes) as Hlen.
  pose proof (count_above_bounds (7 # 10) (map ce_whale_score es)) as Hw.
  pose proof (count_above_bounds (7 # 10) (map ce_risk_factor es)) as Hr.
  rewrite length_map, Hlen in Hw, Hr.
  repeat split; try assumption; try lia.
  - now apply (max_list_is_maximum _ _ Hhw).
  - now apply (max_list_is_maximum _ _ Hhw).
  - now apply (max_list_is_maximum _ _ Hhr).
  - now apply (max_list_is_maximum _ _ Hhr).
Qed.

Lemma comparison_summary_invariants_witness :
  exists c,
    compare_addresses "2025-01-01T00:00:00"
      (mk_address_data (Some [wallet "sei1a" 50000 []; wallet "sei1b" 20000000 []]))
    = inr (Comparison c) /\
    total_addresses c = 2%Z.
Proof.
  destruct (compare_addresses "2025-01-01T00:00:00"
              (mk_address_data (Some [wallet "sei1a" 50000 []; wallet "sei1b" 20000000 []])))
    as [e | [err | c]] eqn:E; try discriminate E.
  exists c. split; [reflexivity |].
  apply (comparison_summary_invariants _ _ c E).
Defined.

(** ** The HTTP wrapper *)



Section McpProperties.

Variable health_report : Type.
Variable analyze_network_health : string -> health_report.

Let endpoint := mcp_endpoint analyze_network_health.


End McpProperties.



(** X15: a JSON-RPC call of analyze_wallet without walletData is not an
    error: the tool analyses the empty wallet under the address 'unknown'
    with balance 0 and no transactions, and the reply carries that
    analysis (classification "Regular User", no risk factor). *)
Theorem mcp_default_wallet (H : Type) (analyze_network_health : string -> H)
    (now : string) (body : rpc_body) (arguments : option tool_arguments) :
  rpc_method body = Some "tools/call" ->
  rpc_params_ body = Some (mk_rpc_params (Some "analyze_wallet") arguments) ->
  (forall a, arguments = Some a -> arg_walletData a = None) ->
  exists r,
    outcome (mcp_endpoint analyze_network_health now (Some body)) = inr (WalletResult r) /\
    address r = "unknown" /\
    analysis_timestamp r = now /\
    balance_sei (metrics r) = 0 /\
    wm_transaction_count (metrics r) = 0%Z /\
    classification r = "Regular User" /\
    factors (assessment r) = [] /\
    recommendations r = [].
Proof.
  intros Hm Hp Ha.
  unfold mcp_endpoint, mcp_dispatch. rewrite Hm, Hp.
  cbn [is_text param_name param_arguments String.eqb Ascii.eqb Bool.eqb].
  assert (match
             arg_walletData
               match arguments with Some a => a | None => mk_tool_arguments None None end
           with Some w => w | None => mk_wallet_data None None None end
          = mk_wallet_data None None None) as ->.
  { destruct arguments as [a |]; [rewrite (Ha a eq_refl) |]; reflexivity. }
  eexists. split; [reflexivity |]. repeat split; reflexivity.
Qed.

Lemma mcp_default_wallet_witness :
  exists r,
    outcome (mcp_endpoint (fun now : string => tt) "2025-01-01T00:00:00"
               (Some (mk_rpc_body (Some "tools/call")
                        (Some (mk_rpc_params (Some "analyze_wallet") None)) None)))
    = inr (WalletResult r) /\
    address r = "unknown".
Proof.
  destruct (mcp_default_wallet unit (fun now : string => tt) "2025-01-01T00:00:00"
              (mk_rpc_body (Some "tools/call")
                 (Some (mk_rpc_params (Some "analyze_wallet") None)) None) None)
    as (r & Hr & Ha & _); [reflexivity | reflexivity | discriminate |].
  exists r. split; assumption.
Defined.

(** * The live analyzer *)

(** ** Requests with fallback endpoints *)

Section MakeRequestProperties.

Variable json : Type.
Variable http_get : string -> option (Z * option json).

Lemma make_request_step (endpoint : string) (rest : list string) (path : string) :
  (exists answer, answers http_get endpoint path answer /\
                  make_request http_get (endpoint :: rest) path = inr answer) \/
  (fails http_get endpoint path /\
   make_request http_get (endpoint :: rest) path = make_request http_get rest path).
Proof.
  unfold answers, fails. simpl.
  destruct (http_get (request_url endpoint path)) as [[status [answer |]] |] eqn:E.
  - destruct (Z.eqb_spec status 200) as [-> | Hne].
    + left. exists answer. split; reflexivity.
    + right. split; [| reflexivity]. intros a H. unfold answers in H.
      rewrite E in H. congruence.
  - right. split.
    + intros a H. unfold answers in H. rewrite E in H. discriminate H.
    + destruct (status =? 200)%Z; reflexivity.
  - right. split; [| reflexivity]. intros a H. unfold answers in H.
    rewrite E in H. discriminate H.
Qed.

Lemma make_request_returns (endpoints : list string) (path : string) (answer : json) :
  make_request http_get endpoints path = inr answer <->
  exists before endpoint after,
    endpoints = before ++ endpoint :: after /\
    Forall (fun e => fails http_get e path) before /\
    answers http_get endpoint path answer.
Proof.
  induction endpoints as [| e rest IH].
  - split; [discriminate |].
    intros (before & endpoint & after & H & _). destruct before; discriminate H.
  - destruct (make_request_step e rest path) as [[a [Ha Hr]] | [Hf Hr]]; rewrite Hr.
    + split.
      * intro H. injection H as ->. exists [], e, rest. repeat split; auto.
      * intros (before & endpoint & after & Hsplit & Hfail & Hans).
        destruct before as [| b before'].
        -- injection Hsplit as <- _. unfold answers in Ha, Hans. congruence.
        -- injection Hsplit as <- _. inversion Hfail as [| ? ? Hb _]; subst.
           exfalso. exact (Hb a Ha).
    + rewrite IH. split.
      * intros (before & endpoint & after & -> & Hfail & Hans).
        exists (e :: before), endpoint, after. repeat split; auto.
      * intros (before & endpoint & after & Hsplit & Hfail & Hans).
        destruct before as [| b before'].
        -- injection Hsplit as <- _. exfalso. exact (Hf answer Hans).
        -- injection Hsplit as _ ->. inversion Hfail; subst.
           exists before', endpoint, after. repeat split; auto.
Qed.

Lemma make_request_raises (endpoints : list string) (path : string) (message : string) :
  make_request http_get endpoints path = inl message <->
  message = "All Sei endpoints failed" /\ Forall (fun e => fails http_get e path) endpoints.
Proof.
  induction endpoints as [| e rest IH].
  - simpl. split.
    + intro H. injection H as <-. split; [reflexivity | constructor].
    + intros [-> _]. reflexivity.
  - destruct (make_request_step e rest path) as [[a [Ha Hr]] | [Hf Hr]]; rewrite Hr.
    + split; [discriminate |].
      intros [_ H]. inversion H as [| ? ? He _]; subst. exfalso. exact (He a Ha).
    + rewrite IH. split.
      * intros [-> H]. split; [reflexivity | now constructor].
      * intros [-> H]. inversion H; subst. split; [reflexivity | assumption].
Qed.

End MakeRequestProperties.

(** X16: _make_request tries the endpoints in the order of the list and
    returns the JSON body of the first one that answers with status 200
    and a body it can decode, whatever the later ones would answer; it
    raises "All Sei endpoints failed" exactly when none does. *)
Theorem make_request_first_success (json : Type) (http_get : string -> option (Z * option json))
    (endpoints : list string) (path : string) :
  (forall answer,
     make_request http_get endpoints path = inr answer <->
     exists before endpoint after,
       endpoints = before ++ endpoint :: after /\
       Forall (fun e => fails http_get e path) before /\
       answers http_get endpoint path answer) /\
  (forall message,
     make_request http_get endpoints path = inl message <->
     message = "All Sei endpoints failed" /\
     Forall (fun e => fails http_get e path) endpoints).
Proof.
  split.
  - intro answer. apply make_request_returns.
  - intro message. apply make_request_raises.
Qed.

Lemma make_request_first_success_witness :
  make_request
    (fun url => if String.eqb url "https://rest.sei-apis.com/cosmos/staking/v1beta1/pool"
                then Some (503%Z, None)
                else Some (200%Z, Some url))
    ["https://rest.sei-apis.com"; "https://sei-api.polkachu.com/"]
    "/cosmos/staking/v1beta1/pool"
  = inr "https://sei-api.polkachu.com/cosmos/staking/v1beta1/pool".
Proof.
  apply (make_request_first_success string).
  exists ["https://rest.sei-apis.com"], "https://sei-api.polkachu.com/", [].
  split; [reflexivity |]. split; [| reflexivity].
  constructor; [| constructor].
  intros answer H. discriminate H.
Defined.

Lemma rstrip_slash_trailing (s : string) :
  rstrip_slash (s ++ "/")%string = rstrip_slash s.
Proof.
  induction s as [| c rest IH]; [reflexivity |].
  simpl. rewrite IH. reflexivity.
Qed.

Lemma rstrip_slash_last (s : string) :
  forall kept c, rstrip_slash s = (kept ++ String c EmptyString)%string -> c <> "/"%char.
Proof.
  induction s as [| a rest IH]; intros kept c H; [destruct kept; discriminate H |].
  simpl in H. destruct (rstrip_slash rest) as [| b kept'] eqn:E.
  - destruct (Ascii.eqb_spec a "/") as [-> | Hne]; [destruct kept; discriminate H |].
    destruct kept as [| k kept''].
    + injection H as <-. exact Hne.
    + injection H as _ H. destruct kept''; discriminate H.
  - destruct kept as [| k kept''].
    + injection H as _ H. discriminate H.
    + injection H as _ H. exact (IH kept'' c H).
Qed.

Lemma lstrip_slash_first (s : string) :
  forall c rest, lstrip_slash s = String c rest -> c <> "/"%char.
Proof.
  induction s as [| a s' IH]; intros c rest H; [discriminate H |].
  simpl in H. destruct (Ascii.eqb_spec a "/") as [-> | Hne].
  - exact (IH c rest H).
  - injection H as <- _. exact Hne.
Qed.

(** X17: for a path that is not empty the URL is the endpoint without its
    trailing slashes, one slash, and the path without its leading
    slashes: the endpoint part never ends and the path part never starts
    with a slash, and a slash more at the end of the endpoint or at the
    start of the path gives the same URL; for an empty path the URL is
    the endpoint as it is. *)
Theorem request_url_normalises_slashes (endpoint path : string) :
  request_url endpoint EmptyString = endpoint /\
  (path <> EmptyString ->
   request_url endpoint path
     = (rstrip_slash endpoint ++ "/" ++ lstrip_slash path)%string /\
   (forall kept c, rstrip_slash endpoint = (kept ++ String c EmptyString)%string ->
                   c <> "/"%char) /\
   (forall c rest, lstrip_slash path = String c rest -> c <> "/"%char) /\
   request_url (endpoint ++ "/") path = request_url endpoint path /\
   request_url endpoint (String "/" path) = request_url endpoint path).
Proof.
  split; [reflexivity |].
  intro Hne. destruct path as [| p rest]; [congruence |].
  split; [reflexivity |].
  split; [apply rstrip_slash_last |].
  split; [apply lstrip_slash_first |].
  split.
  - unfold request_url. now rewrite rstrip_slash_trailing.
  - reflexivity.
Qed.

Lemma request_url_normalises_slashes_witness :
  request_url "https://rest.sei-apis.com//" "/cosmos/staking/v1beta1/pool"
  = "https://rest.sei-apis.com/cosmos/staking/v1beta1/pool".
Proof.
  destruct (request_url_normalises_slashes
              "https://rest.sei-apis.com//" "/cosmos/staking/v1beta1/pool") as [_ H].
  destruct (H ltac:(discriminate)) as (-> & _). reflexivity.
Defined.

(** ** The cache of the network data *)

(** X18: within the time to live (less than 300 seconds after the time
    stamp of the entry) get_network_stats returns the cached data and
    leaves the cache as it is, whatever the network would answer; a
    successful fetch with an empty or expired cache returns the fetched
    data and stores them under the current time, so that a call less than
    300 seconds later returns the same data without looking at the
    network. *)
Theorem network_cache_ttl (now : Q) (cache : network_cache)
    (fetched : sum string chain_figures) :
  (forall stamp data, cache = Some (stamp, data) -> now - stamp < 300 ->
     get_network_stats now cache fetched = (data, cache)) /\
  (forall figures,
     fetched = inr figures ->
     (cache = None \/ exists stamp data, cache = Some (stamp, data) /\ 300 <= now - stamp) ->
     get_network_stats now cache fetched
       = (network_data_of figures, Some (now, network_data_of figures)) /\
     forall later fetched',
       later - now < 300 ->
       get_network_stats later (snd (get_network_stats now cache fetched)) fetched'
         = (network_data_of figures, Some (now, network_data_of figures))).
Proof.
  split.
  - intros stamp data -> H. unfold get_network_stats, cache_ttl.
    apply Qlt_bool_iff in H. now rewrite H.
  - intros figures -> Hc.
    assert (get_network_stats now cache (inr figures)
            = (network_data_of figures, Some (now, network_data_of figures))) as E.
    { destruct Hc as [-> | (stamp & data & -> & Hexp)]; [reflexivity |].
      unfold get_network_stats, cache_ttl.
      apply Qlt_bool_false in Hexp. now rewrite Hexp. }
    split; [exact E |].
    intros later fetched' Hlater. rewrite E. cbn [snd].
    unfold get_network_stats, cache_ttl.
    apply Qlt_bool_iff in Hlater. now rewrite Hlater.
Qed.

Lemma network_cache_ttl_witness :
  get_network_stats 1700000120 (Some (1700000000, fallback_data "stale"))
    (inr (mk_chain_figures 90000000 "2025-01-01T00:00:00Z" 40 5000000000000000 10000000000000000))
  = (fallback_data "stale", Some (1700000000, fallback_data "stale")).
Proof.
  apply (proj1 (network_cache_ttl 1700000120 (Some (1700000000, fallback_data "stale"))
                  (inr (mk_chain_figures 90000000 "2025-01-01T00:00:00Z" 40
                          5000000000000000 10000000000000000)))
           1700000000 (fallback_data "stale")); reflexivity.
Defined.

(** X19: when the fetch fails and the cache is empty or expired,
    get_network_stats serves the expired entry if there is one, without
    renewing its time stamp, and otherwise the estimated data (block
    height 85,000,000, 100 validators, staking ratio 0.65) with the error
    message, which it does not store: the cache is left as it was. *)
Theorem network_stats_on_failure (now : Q) (cache : network_cache) (error : string) :
  (forall stamp data, cache = Some (stamp, data) -> 300 <= now - stamp ->
     get_network_stats now cache (inl error) = (data, cache)) /\
  (cache = None ->
     get_network_stats now cache (inl error) = (fallback_data error, None) /\
     nd_error (fst (get_network_stats now cache (inl error))) = Some error /\
     nd_staking_ratio (fst (get_network_stats now cache (inl error))) = 65 # 100 /\
     nd_active_validators (fst (get_network_stats now cache (inl error))) = 100%Z).
Proof.
  split.
  - intros stamp data -> H. unfold get_network_stats, cache_ttl.
    apply Qlt_bool_false in H. now rewrite H.
  - intros ->. repeat split; reflexivity.
Qed.

Lemma network_stats_on_failure_witness :
  get_network_stats 1700000400 (Some (1700000000, fallback_data "old")) (inl "All Sei endpoints failed")
  = (fallback_data "old", Some (1700000000, fallback_data "old")).
Proof.
  apply (proj1 (network_stats_on_failure 1700000400 (Some (1700000000, fallback_data "old"))
                  "All Sei endpoints failed")
           1700000000 (fallback_data "old")); [reflexivity | discriminate].
Defined.

Lemma sei_decimals_positive : 0 < sei_decimals.
Proof. reflexivity. Qed.

(** X20: the staking ratio of fetched data is guarded against a zero
    supply: it is 0 when the supply is not positive, and otherwise the
    bonded tokens over the supply (the conversion from usei cancels), so
    it lies in [0, 1] whenever the bonded tokens are between 0 and the
    supply. *)
Theorem staking_ratio_guarded (f : chain_figures) :
  ((cf_supply f <= 0)%Z -> nd_staking_ratio (network_data_of f) = 0) /\
  ((0 < cf_supply f)%Z ->
     nd_staking_ratio (network_data_of f)
       == inject_Z (cf_bonded_tokens f) / inject_Z (cf_supply f)) /\
  ((0 <= cf_bonded_tokens f <= cf_supply f)%Z ->
     0 <= nd_staking_ratio (network_data_of f) <= 1).
Proof.
  unfold network_data_of. cbn [nd_staking_ratio].
  set (bonded := inject_Z (cf_bonded_tokens f)).
  set (supply := inject_Z (cf_supply f)).
  assert (forall x : Z, (0 < x)%Z -> 0 < inject_Z x) as Hpos.
  { intros x Hx. change 0 with (inject_Z 0). now rewrite <- Zlt_Qlt. }
  assert (0 < supply -> 0 < supply / sei_decimals) as Hdiv.
  { intro H. apply Qlt_shift_div_l; [reflexivity | lra]. }
  assert (0 < supply -> bonded / sei_decimals / (supply / sei_decimals) == bonded / supply)
    as Hcancel.
  { intro H. unfold sei_decimals. field. lra. }
  split; [| split].
  - intro H.
    destruct (Qlt_bool_spec 0 (supply / sei_decimals)) as [Hlt | _]; [| reflexivity].
    exfalso. assert (supply <= 0) as Hs.
    { subst supply. change 0 with (inject_Z 0). now rewrite <- Zle_Qle. }
    assert (supply / sei_decimals <= 0).
    { apply Qle_shift_div_r; [reflexivity | lra]. }
    lra.
  - intro H. specialize (Hdiv (Hpos _ H)).
    apply Qlt_bool_iff in Hdiv. rewrite Hdiv. apply Hcancel. now apply Hpos.
  - intros [Hb Hs].
    destruct (Qlt_bool_spec 0 (supply / sei_decimals)) as [Hlt | _];
      [| split; discriminate].
    assert (0 < supply) as Hsup.
    { destruct (Z_lt_le_dec 0 (cf_supply f)) as [H | H]; [now apply Hpos |].
      exfalso. assert (supply <= 0).
      { subst supply. change 0 with (inject_Z 0). now rewrite <- Zle_Qle. }
      assert (supply / sei_decimals <= 0)
        by (apply Qle_shift_div_r; [reflexivity | lra]).
      lra. }
    rewrite (Hcancel Hsup).
    assert (0 <= bonded) by (subst bonded; change 0 with (inject_Z 0); now rewrite <- Zle_Qle).
    assert (bonded <= supply) by (subst bonded supply; now rewrite <- Zle_Qle).
    split.
    + apply Qle_shift_div_l; [exact Hsup | lra].
    + apply Qle_shift_div_r; [exact Hsup | lra].
Qed.

Lemma staking_ratio_guarded_witness :
  nd_staking_ratio
    (network_data_of (mk_chain_figures 90000000 "2025-01-01T00:00:00Z" 40 5000000 0)) = 0.
Proof.
  apply (proj1 (staking_ratio_guarded
                  (mk_chain_figures 90000000 "2025-01-01T00:00:00Z" 40 5000000 0))).
  simpl. lia.
Defined.

(** ** Network health *)






(** X22: when nothing can be fetched and nothing is cached, the health
    report is built from the estimated data and still says "Excellent"
    with a score of 1.0, network security "High" and real_data true; the
    only trace of the failure is the error inside live_metrics. *)
Theorem network_health_on_fallback (format_percent : Q -> string) (clock : string)
    (now : Q) (error : string) :
  let stats := fst (get_network_stats now None (inl error)) in
  let report := get_sei_network_health format_percent clock stats in
  health_overall_score report == 1 /\
  health_status report = "Excellent" /\
  network_security report = "High" /\
  health_chain_id report = "pacific-1" /\
  validator_count report = 100%Z /\
  latest_block report = 85000000%Z /\
  health_real_data report = true /\
  nd_error (live_metrics report) = Some error.
Proof.
  repeat split; reflexivity.
Qed.

(** ** The transactions of the live analyzer *)














Lemma get_live_transactions_length (fetched : option (list (option live_tx) * list (option live_tx)))
    (limit : nat) :
  (List.length (get_live_transactions fetched limit) <= limit)%nat.
Proof.
  unfold get_live_transactions. destruct fetched as [[sent received] |]; simpl; [| lia].
  apply firstn_le_length.
Qed.



(** ** The live wallet analysis *)

Lemma live_influence_value (transactions : list live_tx) (balance : Q) :
  live_influence_score transactions balance
  = inr (min_ (if Qlt_bool 0 balance then live_total_volume transactions / balance else 0) 1
         * (5 # 10)).
Proof.
  unfold live_influence_score.
  destruct (Qlt_bool_spec 0 balance) as [H | H]; [| reflexivity].
  rewrite truediv_ok by lra. reflexivity.
Qed.

Lemma live_average_returns (transactions : list live_tx) :
  exists average,
    match transactions with
    | [] => ret 0
    | _ => a <- truediv (live_total_volume transactions)
                  (inject_Z (Z.of_nat (List.length transactions))) ;;
           ret (round6 a)
    end = (inr average : exc Q).
Proof.
  destruct transactions as [| t rest]; [eexists; reflexivity |].
  rewrite truediv_ok; [eexists; reflexivity |].
  pose proof (len_nonzero t rest) as H. exact H.
Qed.

Lemma live_analysis_returns (clock address : string) (account : account_info)
    (transactions : list live_tx) :
  exists r,
    live_analysis_of clock address account transactions = inr r /\
    live_address r = address /\
    live_analysis_timestamp r = clock /\
    live_classification r
      = live_classify (live_whale_score (ai_balance_sei account))
          (count_live (fun t => String.eqb (ltx_tx_type t) "staking") transactions)
          (Z.of_nat (List.length transactions)) /\
    LiveScores.whale_score (live_scores r) = round3 (live_whale_score (ai_balance_sei account)) /\
    LiveScores.risk_factor (live_scores r) = round3 (live_risk_factor transactions) /\
    LiveScores.influence_score (live_scores r)
      = round3 (min_ (if Qlt_bool 0 (ai_balance_sei account)
                      then live_total_volume transactions / ai_balance_sei account
                      else 0) 1 * (5 # 10)) /\
    LiveScores.overall_score (live_scores r)
      = round3 (live_whale_score (ai_balance_sei account) * (4 # 10)
                + (1 - live_risk_factor transactions) * (3 # 10)
                + min_ (if Qlt_bool 0 (ai_balance_sei account)
                        then live_total_volume transactions / ai_balance_sei account
                        else 0) 1 * (5 # 10) * (3 # 10)) /\
    lm_transaction_count (live_metrics_ r) = Z.of_nat (List.length transactions) /\
    live_recommendations r =
      not_none [
        when (Qlt_bool (7 # 10) (live_whale_score (ai_balance_sei account)))
             "High-value wallet - monitor for large movements";
        when (5 <? count_live (fun t => String.eqb (ltx_tx_type t) "staking") transactions)%Z
             "Active staker - earning rewards";
        when ((count_live (fun t => String.eqb (ltx_tx_type t) "staking") transactions =? 0)%Z
              && Qlt_bool 1000 (ai_balance_sei account))
             "Consider staking for rewards";
        when (Qlt_bool (inject_Z (Z.of_nat (List.length transactions)) * (1 # 10))
                       (inject_Z (live_failed_count transactions)))
             "High transaction failure rate"
      ].
Proof.
  unfold live_analysis_of.
  rewrite live_influence_value.
  destruct (live_average_returns transactions) as [average Havg].
  exc_simpl. rewrite Havg. exc_simpl.
  eexists. split; [reflexivity |]. repeat split; reflexivity.
Qed.

(** X24: the live analysis guards its division: for an account fetched
    without error the tool analyze_wallet_live always returns an analysis,
    also with a balance of zero and transactions, and then reports an
    influence score of 0; it fails exactly when get_account_info reported
    an error, with that error. *)
Theorem live_analysis_never_divides_by_zero (str_exception : exn -> string)
    (clock address : string) (account : sum string account_info)
    (fetched : option (list (option live_tx) * list (option live_tx))) :
  match analyze_wallet_live_tool str_exception clock address account fetched with
  | LiveFailed error => account = inl error
  | LiveResult r =>
      exists info,
        account = inr info /\
        live_address r = address /\
        live_real_data r = true /\
        (ai_balance_sei info <= 0 -> LiveScores.influence_score (live_scores r) == 0)
  end.
Proof.
  unfold analyze_wallet_live_tool.
  destruct account as [error | info]; [reflexivity |].
  destruct (live_analysis_returns clock address info (get_live_transactions fetched 100))
    as (r & Hr & Ha & _ & _ & _ & _ & Hi & _).
  rewrite Hr. exists info. split; [reflexivity |]. split; [exact Ha |].
  split.
  - unfold live_analysis_of in Hr. rewrite live_influence_value in Hr.
    destruct (live_average_returns (get_live_transactions fetched 100)) as [average Havg].
    exc_simpl. rewrite Havg in Hr. exc_simpl. injection Hr as <-. reflexivity.
  - intro Hb. rewrite Hi. apply Qlt_bool_false in Hb. rewrite Hb. reflexivity.
Qed.

Lemma live_analysis_never_divides_by_zero_witness :
  exists r,
    analyze_wallet_live_tool (fun _ => "error") "2025-01-01T00:00:00" "sei1abc"
      (inr (mk_account_info 0 0 (Some "7") (Some "3")))
      (Some ([Some (mk_live_tx "A1" 100 "2025-01-01T00:00:00Z" "outgoing" "transfer" 25
                      "sei1def" (1 # 100) "success")], []))
    = LiveResult r /\
    LiveScores.influence_score (live_scores r) == 0.
Proof.
  pose proof (live_analysis_never_divides_by_zero (fun _ => "error") "2025-01-01T00:00:00"
                "sei1abc" (inr (mk_account_info 0 0 (Some "7") (Some "3")))
                (Some ([Some (mk_live_tx "A1" 100 "2025-01-01T00:00:00Z" "outgoing" "transfer"
                                25 "sei1def" (1 # 100) "success")], []))) as H.
  destruct (analyze_wallet_live_tool _ _ _ _ _) as [error | r]; [discriminate H |].
  destruct H as (info & E & _ & _ & Hi). injection E as <-.
  exists r. split; [reflexivity |]. apply Hi. discriminate.
Defined.

Lemma live_whale_range (balance : Q) :
  0 <= balance -> 0 <= live_whale_score balance <= 1.
Proof.
  intro H. unfold live_whale_score. split; [| apply min__le_r].
  apply min__nonneg; [| discriminate].
  apply Qle_shift_div_l; [reflexivity | lra].
Qed.

Lemma live_risk_values (transactions : list live_tx) :
  let r := live_risk_factor transactions in
  (3 # 10) <= r <= (8 # 10) /\
  ((Z.of_nat (List.length transactions) <= 1000)%Z -> r <= 5 # 10).
Proof.
  unfold live_risk_factor.
  destruct (Z.ltb_spec 1000 (Z.of_nat (List.length transactions)));
    destruct (Qlt_bool _ _); rewrite min__spec;
    (rewrite Q.min_l by discriminate);
    (split; [split; discriminate |]); intro; try discriminate; lia.
Qed.

Lemma live_influence_range (transactions : list live_tx) (balance : Q) :
  (forall t, In t transactions -> 0 <= ltx_amount t) ->
  0 <= min_ (if Qlt_bool 0 balance then live_total_volume transactions / balance else 0) 1
       * (5 # 10) <= 5 # 10.
Proof.
  intro Hpos.
  assert (0 <= (if Qlt_bool 0 balance then live_total_volume transactions / balance else 0))
    as Hr.
  { destruct (Qlt_bool_spec 0 balance) as [Hb | Hb]; [| discriminate].
    apply Qle_shift_div_l; [exact Hb |]. rewrite Qmult_0_l.
    apply sum_nonneg. intros x Hx. apply in_map_iff in Hx.
    destruct Hx as [t [<- Ht]]. now apply Hpos. }
  pose proof (min__nonneg _ 1 Hr ltac:(discriminate)).
  pose proof (min__le_r (if Qlt_bool 0 balance
                         then live_total_volume transactions / balance else 0) 1).
  split; lra.
Qed.

(** X25: for a balance and amounts that are not negative the scores of
    the live analysis are in range: whale score in [0, 1], risk factor in
    [0.3, 0.8], influence score in [0, 0.5] and overall score in [0, 1],
    each as reported after rounding. *)
Theorem live_scores_in_range (clock address : string) (account : account_info)
    (transactions : list live_tx) :
  0 <= ai_balance_sei account ->
  (forall t, In t transactions -> 0 <= ltx_amount t) ->
  exists r,
    live_analysis_of clock address account transactions = inr r /\
    0 <= LiveScores.whale_score (live_scores r) <= 1 /\
    0 <= LiveScores.risk_factor (live_scores r) <= 1 /\
    0 <= LiveScores.influence_score (live_scores r) <= 1 /\
    0 <= LiveScores.overall_score (live_scores r) <= 1.
Proof.
  intros Hb Hpos.
  destruct (live_analysis_returns clock address account transactions)
    as (r & Hr & _ & _ & _ & Hw & Hk & Hi & Ho & _).
  exists r. split; [exact Hr |].
  pose proof (live_whale_range _ Hb) as Hwr.
  destruct (live_risk_values transactions) as [Hrr _].
  pose proof (live_influence_range transactions (ai_balance_sei account) Hpos) as Hir.
  rewrite Hw, Hk, Hi, Ho.
  repeat split; apply round3_unit; lra.
Qed.

Lemma live_scores_in_range_witness :
  exists r,
    live_analysis_of "2025-01-01T00:00:00" "sei1abc"
      (mk_account_info 2500 2500000000 None None) [] = inr r /\
    0 <= LiveScores.overall_score (live_scores r) <= 1.
Proof.
  destruct (live_scores_in_range "2025-01-01T00:00:00" "sei1abc"
              (mk_account_info 2500 2500000000 None None) [])
    as (r & Hr & _ & _ & _ & Ho); [discriminate | intros t [] |].
  exists r. split; assumption.
Defined.

Lemma live_whale_above (balance bound : Q) :
  bound < 1 -> (bound < live_whale_score balance <-> bound * 10000000 < balance).
Proof.
  intro Hb. unfold live_whale_score. rewrite min__spec.
  assert (bound < balance / 10000000 <-> bound * 10000000 < balance) as Hdiv.
  { split; intro H.
    - destruct (Qlt_le_dec (bound * 10000000) balance) as [Hlt | Hle]; [exact Hlt |].
      exfalso. assert (balance / 10000000 <= bound)
        by (apply Qle_shift_div_r; [reflexivity | lra]). lra.
    - apply Qlt_shift_div_l; [reflexivity | exact H]. }
  rewrite <- Hdiv.
  destruct (Q.min_spec (balance / 10000000) 1) as [[Hlt E] | [Hle E]]; rewrite E;
    split; intro H; lra.
Qed.

Lemma round_half_even_near (y : Q) :
  y - (1 # 2) <= inject_Z (round_half_even y) <= y + (1 # 2).
Proof.
  unfold round_half_even.
  pose proof (Qfloor_le y) as Hfl. pose proof (Qlt_floor y) as Hlt.
  rewrite inject_Z_plus in Hlt. change (inject_Z 1) with 1 in Hlt.
  destruct (Qlt_bool_spec (y - inject_Z (Qfloor y)) (1 # 2)); [split; lra |].
  destruct (Qlt_bool_spec (1 # 2) (y - inject_Z (Qfloor y))).
  - rewrite inject_Z_plus. change (inject_Z 1) with 1. split; lra.
  - destruct (Z.even (Qfloor y)); [split; lra |].
    rewrite inject_Z_plus. change (inject_Z 1) with 1. split; lra.
Qed.

Lemma round_half_even_monotone (x y : Q) :
  x <= y -> (round_half_even x <= round_half_even y)%Z.
Proof.
  intro H.
  destruct (Z_le_gt_dec (round_half_even x) (round_half_even y)) as [Hle | Hgt];
    [exact Hle | exfalso].
  pose proof (round_half_even_near x) as [Hx1 Hx2].
  pose proof (round_half_even_near y) as [Hy1 Hy2].
  assert (inject_Z (round_half_even y) + 1 <= inject_Z (round_half_even x)) as Hgap.
  { change 1 with (inject_Z 1). rewrite <- inject_Z_plus, <- Zle_Qle. lia. }
  assert (x == y) as Exy by lra.
  assert (inject_Z (round_half_even x) == x + (1 # 2)) as Ex by lra.
  assert (inject_Z (round_half_even y) == y - (1 # 2)) as Ey by lra.
  clear Hx1 Hx2 Hy1 Hy2 Hgap.
  unfold round_half_even in Ex, Ey, Hgt.
  assert (Qfloor x = Qfloor y) as Ef.
  { apply Z.le_antisymm; apply Qfloor_resp_le; lra. }
  rewrite Ef in *.
  pose proof (Qfloor_le y) as Hfl. pose proof (Qlt_floor y) as Hlt.
  rewrite inject_Z_plus in Hlt. change (inject_Z 1) with 1 in Hlt.
  assert (Qlt_bool (x - inject_Z (Qfloor y)) (1 # 2)
          = Qlt_bool (y - inject_Z (Qfloor y)) (1 # 2)) as E1.
  { destruct (Qlt_bool_spec (x - inject_Z (Qfloor y)) (1 # 2));
      destruct (Qlt_bool_spec (y - inject_Z (Qfloor y)) (1 # 2)); try reflexivity;
      exfalso; lra. }
  assert (Qlt_bool (1 # 2) (x - inject_Z (Qfloor y))
          = Qlt_bool (1 # 2) (y - inject_Z (Qfloor y))) as E2.
  { destruct (Qlt_bool_spec (1 # 2) (x - inject_Z (Qfloor y)));
      destruct (Qlt_bool_spec (1 # 2) (y - inject_Z (Qfloor y))); try reflexivity;
      exfalso; lra. }
  rewrite E1, E2 in Hgt. lia.
Qed.

Lemma round3_monotone (x y : Q) : x <= y -> round3 x <= round3 y.
Proof.
  intro H. unfold round3.
  assert (round_half_even (x * 1000) <= round_half_even (y * 1000))%Z as Hr
    by (apply round_half_even_monotone; lra).
  rewrite Zle_Qle in Hr.
  apply Qle_shift_div_l; [reflexivity |].
  setoid_replace (inject_Z (round_half_even (x * 1000)) / 1000 * 1000)
    with (inject_Z (round_half_even (x * 1000))) by field.
  exact Hr.
Qed.

(** X26: the tool analyze_wallet_live asks for at most 100 transactions,
    so it never classifies a wallet as "Active Trader" (more than 100
    transactions) and never adds the 0.3 for more than 1000 transactions:
    the label is "Whale" exactly for a balance above 8,000,000, "Large
    Holder" exactly for a balance above 5,000,000 and up to 8,000,000, and
    otherwise "Active Staker" or "Regular User"; the reported risk factor
    is at most 0.5. *)
Theorem live_tool_classification (str_exception : exn -> string) (clock address : string)
    (info : account_info)
    (fetched : option (list (option live_tx) * list (option live_tx))) :
  exists r,
    analyze_wallet_live_tool str_exception clock address (inr info) fetched = LiveResult r /\
    (lm_transaction_count (live_metrics_ r) <= 100)%Z /\
    In (live_classification r) ["Whale"; "Large Holder"; "Active Staker"; "Regular User"] /\
    (live_classification r = "Whale" <-> 8000000 < ai_balance_sei info) /\
    (live_classification r = "Large Holder" <->
       5000000 < ai_balance_sei info <= 8000000) /\
    LiveScores.risk_factor (live_scores r) <= 5 # 10.
Proof.
  unfold analyze_wallet_live_tool.
  pose proof (get_live_transactions_length fetched 100) as Hlen.
  set (transactions := get_live_transactions fetched 100) in *.
  destruct (live_analysis_returns clock address info transactions)
    as (r & Hr & _ & _ & Hc & _ & Hk & _ & _ & Hn & _).
  rewrite Hr. exists r. split; [reflexivity |].
  split; [rewrite Hn; lia |].
  pose proof (live_whale_above (ai_balance_sei info) (8 # 10) ltac:(reflexivity)) as H8.
  pose proof (live_whale_above (ai_balance_sei info) (5 # 10) ltac:(reflexivity)) as H5.
  setoid_replace ((8 # 10) * 10000000) with 8000000 in H8 by reflexivity.
  setoid_replace ((5 # 10) * 10000000) with 5000000 in H5 by reflexivity.
  rewrite Hc. unfold live_classify.
  destruct (Z.ltb_spec 100 (Z.of_nat (List.length transactions))) as [Hbig | _]; [lia |].
  split; [| split; [| split]].
  - repeat (match goal with |- context [if ?c then _ else _] => destruct c end);
      simpl; auto 10.
  - destruct (Qlt_bool_spec (8 # 10) (live_whale_score (ai_balance_sei info))) as [Hw | Hw].
    + split; [intros _; now apply H8 | reflexivity].
    + split.
      * intro E. exfalso.
        repeat (match type of E with context [if ?c then _ else _] => destruct c end);
          discriminate E.
      * intro Hb. apply H8 in Hb. exfalso. lra.
  - destruct (Qlt_bool_spec (8 # 10) (live_whale_score (ai_balance_sei info))) as [Hw | Hw].
    + split; [discriminate |]. intros [_ Hb]. apply H8 in Hw. exfalso. lra.
    + destruct (Qlt_bool_spec (5 # 10) (live_whale_score (ai_balance_sei info))) as [Hv | Hv].
      * split; [| reflexivity]. intros _. apply H5 in Hv. split; [exact Hv |].
        destruct (Qlt_le_dec 8000000 (ai_balance_sei info)) as [Hlt | Hle]; [| exact Hle].
        apply H8 in Hlt. exfalso. lra.
      * split.
        -- intro E. exfalso.
           repeat (match type of E with context [if ?c then _ else _] => destruct c end);
             discriminate E.
        -- intros [Hb _]. apply H5 in Hb. exfalso. lra.
  - rewrite Hk.
    destruct (live_risk_values transactions) as [[Hlow _] Hup].
    specialize (Hup ltac:(lia)).
    assert (round3 (5 # 10) == 5 # 10) as E5 by reflexivity.
    rewrite <- E5. apply round3_monotone. exact Hup.
Qed.

Lemma live_tool_classification_witness :
  exists r,
    analyze_wallet_live_tool (fun _ => "error") "2025-01-01T00:00:00" "sei1abc"
      (inr (mk_account_info 9000000 9000000000000 None None)) None = LiveResult r /\
    live_classification r = "Whale".
Proof.
  destruct (live_tool_classification (fun _ => "error") "2025-01-01T00:00:00" "sei1abc"
              (mk_account_info 9000000 9000000000000 None None) None)
    as (r & Hr & _ & _ & Hw & _).
  exists r. split; [exact Hr |]. apply Hw. reflexivity.
Defined.

(** X27: in the live analysis the advice "High-value wallet - monitor for
    large movements" is given exactly for a balance above 7,000,000, hence
    to every wallet classified "Whale"; "Consider staking for rewards" is
    given exactly to a wallet without staking transaction and with a
    balance above 1000, and never together with "Active staker - earning
    rewards". *)
Theorem live_recommendations_consistent (clock address : string) (account : account_info)
    (transactions : list live_tx) (r : live_wallet_analysis) :
  live_analysis_of clock address account transactions = inr r ->
  (In "High-value wallet - monitor for large movements" (live_recommendations r) <->
     7000000 < ai_balance_sei account) /\
  (live_classification r = "Whale" ->
     In "High-value wallet - monitor for large movements" (live_recommendations r)) /\
  (In "Consider staking for rewards" (live_recommendations r) <->
     lm_staking_transactions (live_metrics_ r) = 0%Z /\ 1000 < ai_balance_sei account) /\
  ~ (In "Active staker - earning rewards" (live_recommendations r) /\
     In "Consider staking for rewards" (live_recommendations r)).
Proof.
  intro H.
  destruct (live_analysis_returns clock address account transactions)
    as (r' & Hr & _ & _ & Hc & _ & _ & _ & _ & _ & Hrec).
  rewrite H in Hr. injection Hr as <-.
  assert (lm_staking_transactions (live_metrics_ r)
          = count_live (fun t => String.eqb (ltx_tx_type t) "staking") transactions) as Hs.
  { unfold live_analysis_of in H. rewrite live_influence_value in H.
    destruct (live_average_returns transactions) as [average Havg].
    exc_simpl. rewrite Havg in H. exc_simpl. injection H as <-. reflexivity. }
  rewrite Hs, Hrec, Hc. clear Hs Hrec Hc H.
  set (staking := count_live (fun t => String.eqb (ltx_tx_type t) "staking") transactions).
  pose proof (live_whale_above (ai_balance_sei account) (7 # 10) ltac:(reflexivity)) as H7.
  setoid_replace ((7 # 10) * 10000000) with 7000000 in H7 by reflexivity.
  pose proof (live_whale_above (ai_balance_sei account) (8 # 10) ltac:(reflexivity)) as H8.
  setoid_replace ((8 # 10) * 10000000) with 8000000 in H8 by reflexivity.
  assert (In "High-value wallet - monitor for large movements"
            (not_none
               [when (Qlt_bool (7 # 10) (live_whale_score (ai_balance_sei account)))
                  "High-value wallet - monitor for large movements";
                when (5 <? staking)%Z "Active staker - earning rewards";
                when ((staking =? 0)%Z && Qlt_bool 1000 (ai_balance_sei account))
                  "Consider staking for rewards";
                when (Qlt_bool (inject_Z (Z.of_nat (List.length transactions)) * (1 # 10))
                        (inject_Z (live_failed_count transactions)))
                  "High transaction failure rate"])
          <-> 7000000 < ai_balance_sei account) as Hhigh.
  { rewrite not_none_when_In. cbn [In]. rewrite !when_Some. rewrite <- H7. split.
    - intros [[E _] | [[_ E] | [[_ E] | [[_ E] | []]]]]; try discriminate E.
      now apply Qlt_bool_iff.
    - intro E. left. split; [now apply Qlt_bool_iff | reflexivity]. }
  split; [exact Hhigh |].
  split.
  { intro Hw. apply Hhigh. unfold live_classify in Hw.
    destruct (Qlt_bool_spec (8 # 10) (live_whale_score (ai_balance_sei account))) as [E | E].
    - apply H8 in E. lra.
    - exfalso.
      repeat (match type of Hw with context [if ?c then _ else _] => destruct c end);
        discriminate Hw. }
  split.
  - rewrite not_none_when_In. cbn [In]. rewrite !when_Some. split.
    + intros [[_ E] | [[_ E] | [[E _] | [[_ E] | []]]]]; try discriminate E.
      apply andb_true_iff in E. destruct E as [E1 E2].
      split; [now apply Z.eqb_eq | now apply Qlt_bool_iff].
    + intros [E1 E2]. right. right. left. split; [| reflexivity].
      apply andb_true_iff. split; [now apply Z.eqb_eq | now apply Qlt_bool_iff].
  - rewrite !not_none_when_In. cbn [In]. rewrite !when_Some.
    intros [Ha Hb].
    destruct Ha as [[_ E] | [[Ha _] | [[_ E] | [[_ E] | []]]]]; try discriminate E.
    destruct Hb as [[_ E] | [[_ E] | [[Hb _] | [[_ E] | []]]]]; try discriminate E.
    apply andb_true_iff in Hb. destruct Hb as [Hb _].
    apply Z.ltb_lt in Ha. apply Z.eqb_eq in Hb. lia.
Qed.

Lemma live_recommendations_consistent_witness :
  exists r,
    live_analysis_of "2025-01-01T00:00:00" "sei1abc"
      (mk_account_info 2500 2500000000 None None) [] = inr r /\
    In "Consider staking for rewards" (live_recommendations r).
Proof.
  destruct (live_analysis_of "2025-01-01T00:00:00" "sei1abc"
              (mk_account_info 2500 2500000000 None None) []) as [e | r] eqn:E;
    [discriminate E |].
  exists r. split; [reflexivity |].
  apply (live_recommendations_consistent _ _ _ _ r E).
  injection E as <-. split; reflexivity.
Defined.

(** X28: POST /analyze/wallet of the live HTTP server answers a missing
    or empty address with status 400 "Address is required" before any
    fetch result is looked at, an account that could not be fetched with
    status 500 and the error of the fetch, and otherwise with exactly the
    analysis the tool analyze_wallet_live returns for the same address
    and the same fetched data. *)
Theorem live_endpoint_replies (str_exception : exn -> string) (clock : string)
    (address : option string) (account : sum string account_info)
    (fetched : option (list (option live_tx) * list (option live_tx))) :
  match live_analyze_wallet_endpoint clock address account fetched with
  | Failure status_code detail =>
      (falsy address = true /\ status_code = 400%Z /\ detail = Text "Address is required") \/
      (falsy address = false /\ status_code = 500%Z /\
       exists error, account = inl error /\ detail = Text error)
  | Content r =>
      exists a, address = Some a /\ a <> EmptyString /\
                analyze_wallet_live_tool str_exception clock a account fetched = LiveResult r
  end.
Proof.
  unfold live_analyze_wallet_endpoint, analyze_wallet_live_tool.
  destruct (falsy address) eqn:Ef; [left; repeat split; reflexivity |].
  destruct account as [error | info].
  - right. split; [reflexivity |]. split; [reflexivity |]. exists error. split; reflexivity.
  - destruct address as [a |]; [| discriminate Ef].
    cbn [get_str].
    destruct (live_analysis_returns clock a info (get_live_transactions fetched 100))
      as (r & Hr & _).
    rewrite Hr. exists a. split; [reflexivity |].
    split; [intros ->; discriminate Ef | now rewrite Hr].
Qed.

(** * The configuration of the MCP servers *)

Section DiscoveryProperties.

Variable json : Type.
Variable as_dict : json -> option (list (string * json)).
Variable read_file : string -> option string.
Variable json_load : string -> option json.
Variable default_config_file : string.

Let init := Discovery.init json as_dict read_file json_load default_config_file.

Lemma init_explicit_path (path : string) : init (Some path) = inl Discovery.AttributeError.
Proof. reflexivity. Qed.

Lemma init_default_cases :
  match init None with
  | inr self =>
      Discovery.config_file json self = Some default_config_file /\
      exists text data,
        read_file default_config_file = Some text /\
        json_load text = Some data /\
        as_dict data = Some (Discovery.config json self)
  | inl (Discovery.FileNotFoundError _) => read_file default_config_file = None
  | inl (Discovery.ValueError _) =>
      exists text,
        read_file default_config_file = Some text /\
        (json_load text = None \/
         exists data, json_load text = Some data /\ as_dict data = None)
  | inl _ => False
  end.
Proof.
  unfold init, Discovery.init, Discovery.load_config.
  destruct (read_file default_config_file) as [text |] eqn:Er; [| reflexivity].
  destruct (json_load text) as [data |] eqn:Ej.
  - destruct (as_dict data) as [entries |] eqn:Ed.
    + split; [reflexivity |]. exists text, data. auto.
    + exists text. split; [reflexivity |]. right. exists data. auto.
  - exists text. auto.
Qed.

Lemma lookup_In (key : string) (d : list (string * json)) :
  match Discovery.lookup json key d with
  | Some v => In (key, v) d
  | None => forall v, ~ In (key, v) d
  end.
Proof.
  induction d as [| [k v] rest IH]; simpl; [intros v [] |].
  destruct (String.eqb_spec k key) as [-> | Hne].
  - now left.
  - destruct (Discovery.lookup json key rest) as [w |].
    + now right.
    + intros w [E | H]; [injection E as E _; contradiction | exact (IH w H)].
Qed.

End DiscoveryProperties.

(** X30: MCPDiscovery never reads a configuration file named by its
    caller: the constructor assigns self.config_file only when the
    argument is None, so with any explicit path it raises AttributeError,
    whatever the file system holds. Without an argument it loads the
    default file: it succeeds exactly with the entries of a file that
    exists, is JSON and holds a dict; a missing file gives
    FileNotFoundError, and a file that is not JSON or not a dict gives
    ValueError; list_servers then returns a value stored under
    "mcpServers" in those entries, and raises KeyError only when there is
    none. *)
Theorem discovery_config_loading (json : Type)
    (as_dict : json -> option (list (string * json)))
    (read_file : string -> option string) (json_load : string -> option json)
    (default_config_file : string) :
  (forall path,
     Discovery.init json as_dict read_file json_load default_config_file (Some path)
     = inl Discovery.AttributeError) /\
  match Discovery.init json as_dict read_file json_load default_config_file None with
  | inr self =>
      Discovery.config_file json self = Some default_config_file /\
      (exists text data,
         read_file default_config_file = Some text /\
         json_load text = Some data /\
         as_dict data = Some (Discovery.config json self)) /\
      match Discovery.list_servers json self with
      | inr servers => In ("mcpServers", servers) (Discovery.config json self)
      | inl (Discovery.KeyError _) =>
          forall servers, ~ In ("mcpServers", servers) (Discovery.config json self)
      | inl _ => False
      end
  | inl (Discovery.FileNotFoundError _) => read_file default_config_file = None
  | inl (Discovery.ValueError _) =>
      exists text,
        read_file default_config_file = Some text /\
        (json_load text = None \/
         exists data, json_load text = Some data /\ as_dict data = None)
  | inl _ => False
  end.
Proof.
  split; [intro path; apply init_explicit_path |].
  pose proof (init_default_cases json as_dict read_file json_load default_config_file) as H.
  destruct (Discovery.init json as_dict read_file json_load default_config_file None)
    as [e | self]; [exact H |].
  destruct H as [Hf Hd]. split; [exact Hf |]. split; [exact Hd |].
  unfold Discovery.list_servers.
  pose proof (lookup_In json "mcpServers" (Discovery.config json self)) as Hl.
  destruct (Discovery.lookup json "mcpServers" (Discovery.config json self)); exact Hl.
Qed.

(** ** Classification by balance *)

Lemma default_percentage (balance : Q) :
  balance / default_total_supply * 100 == balance * (1 # 100000000).
Proof. unfold default_total_supply. field. Qed.

Lemma whale_score_by_balance (balance ws : Q) :
  calculate_whale_score balance default_total_supply = inr ws ->
  ((8 # 10) <= ws <-> 10000000 <= balance) /\
  ((5 # 10) <= ws <-> 100000 <= balance).
Proof.
  intro H.
  assert (~ default_total_supply == 0) as Hne by discriminate.
  pose proof (default_percentage balance) as Hp.
  destruct (whale_score_cases balance default_total_supply Hne) as [[Hb E] | [Hb E]].
  - rewrite H in E. injection E as ->.
    split; split; intro H'; exfalso; try lra; revert H'; discriminate.
  - cbv zeta in E. rewrite Hp in E.
    decompose [and or] E; clear E;
      match goal with
        E : calculate_whale_score _ _ = inr _ |- _ => rewrite H in E; injection E as ->
      end;
      split; split; intro H'; try lra; try discriminate;
      exfalso; revert H'; discriminate.
Qed.

(** X29: analyze_wallet labels a wallet by its balance first: the
    classification is "Whale" exactly for a balance of at least 10,000,000
    (0.1% of the supply of 10,000,000,000) and "Large Holder" exactly for
    a balance of at least 100,000 and below 10,000,000, whatever the
    transactions; only below 100,000 do influence, DeFi participation and
    staking decide. *)
Theorem classification_by_balance (now : string) (w : wallet_data) (r : wallet_analysis) :
  analyze_wallet now w = inr r ->
  (classification r = "Whale" <-> 10000000 <= get_balance w) /\
  (classification r = "Large Holder" <-> 100000 <= get_balance w < 10000000) /\
  (get_balance w < 100000 ->
   In (classification r) ["Active Trader"; "DeFi User"; "Staker"; "Regular User"]).
Proof.
  intro H.
  destruct (analyze_wallet_result _ _ _ H) as (ws & rf & inf & p & Hws & _ & _ & _ & ->).
  cbn [classification build_result Locals.classification].
  destruct (whale_score_by_balance _ _ Hws) as [H8 H5].
  unfold classify.
  destruct (Qle_bool_spec (8 # 10) ws) as [Hw | Hw].
  - apply H8 in Hw. repeat split; try discriminate; intros; try lra; exfalso; lra.
  - assert (get_balance w < 10000000) as Hb.
    { destruct (Qlt_le_dec (get_balance w) 10000000) as [Hlt | Hle]; [exact Hlt |].
      apply H8 in Hle. exfalso. lra. }
    destruct (Qle_bool_spec (5 # 10) ws) as [Hv | Hv].
    + apply H5 in Hv. repeat split; try discriminate; intros; try lra; exfalso; lra.
    + assert (get_balance w < 100000) as Hc.
      { destruct (Qlt_le_dec (get_balance w) 100000) as [Hlt | Hle]; [exact Hlt |].
        apply H5 in Hle. exfalso. lra. }
      split; [| split].
      * split; intro E; [| exfalso; lra].
        exfalso. repeat (match type of E with context [if ?c then _ else _] => destruct c end);
          discriminate E.
      * split; intro E; [| exfalso; lra].
        exfalso. repeat (match type of E with context [if ?c then _ else _] => destruct c end);
          discriminate E.
      * intros _.
        repeat (match goal with |- context [if ?c then _ else _] => destruct c end);
          simpl; auto 10.
Qed.

Lemma classification_by_balance_witness :
  exists r,
    analyze_wallet "2025-01-01T00:00:00" (wallet "sei1abc" 20000000 []) = inr r /\
    classification r = "Whale".
Proof.
  destruct (analyze_wallet "2025-01-01T00:00:00" (wallet "sei1abc" 20000000 []))
    as [e | r] eqn:E; [discriminate E |].
  exists r. split; [reflexivity |].
  apply (classification_by_balance _ _ r E). discriminate.
Defined.
